(** * go-call-pocket-tts: the orchestration layer, embedded and verified

    A shallow embedding of package [pockettts]: the error taxonomy
    (errors.go), the subprocess runner (runner.go), the one-shot client
    (client.go), the WAV header validator and the warm-path server client
    (server.go), the preflight check and the voice export
    (exportvoice.go), and the supervisor of the server process (Start,
    Stop and Health in server.go).

    Go values are modelled as follows.
    - [string] and [[]byte] are byte sequences: a Go string is a Stdlib
      [string], a byte slice is a [list Z] of values in [0, 256).
    - [int] is [Z]; [uint16] and [uint32] are [Z] with the wrap-around
      written out where the code computes with them.
    - [float64] is a primitive binary64 float, so that [x != 0] has the
      IEEE meaning it has in Go.
    - [error] is one inductive type holding the package's own errors, the
      errors built with [fmt.Errorf], and the values that [os/exec], [os],
      [syscall] and [context] hand back.
    - The WAV decoder of the external package [github.com/cwbudde/wav] is
      not part of the repository: it is a parameter of [parseWAVHeader]
      and of the two clients, and the theorems hold for every decoder.
    - Everything the operating system decides (does the pipe open, does the
      process start, what does it print, how does it exit, when does the
      context fire) is read from an explicit environment record, and every
      operation performed on the outside world is appended to a trace of
      events in the order the code performs it. *)

From Stdlib Require Import ZArith List String Ascii Bool Lia.
From Stdlib Require Import Floats DecimalString DecimalPos DecimalZ.
Import ListNotations.

Local Open Scope Z_scope.
Local Open Scope list_scope.

(* ================================================================== *)
(** * Errors (errors.go)                                                *)
(* ================================================================== *)

Module Errors.

Inductive errno := ENOENT | EACCES | ENOEXEC | EMFILE | EPIPE | EISDIR.

Inductive error :=
(* sentinel and typed errors of the package *)
| ErrEmptyText
| ErrExecutableNotFound (Executable : string)
| ErrProcessTimeout (Stderr : string)
| ErrNonZeroExit (ExitCode : Z) (Stderr : string)
| ErrInvalidVoice (Voice : string)
| ErrModelDownloadFailed (Stderr : string)
(* fmt.Errorf(msg) and fmt.Errorf(msg + ": %w", err) *)
| Errorf (msg : string)
| ErrorfW (msg : string) (wrapped : error)
(* values of the libraries the package calls *)
| ExecError (Name : string) (Err : error)          (* *exec.Error *)
| PathError (Op Path : string) (Err : error)       (* *os.PathError *)
| ExecErrNotFound                                  (* exec.ErrNotFound *)
| Errno (e : errno)                                (* syscall.Errno *)
| ExitError (code : Z)                             (* *exec.ExitError *)
| CtxCanceled                                      (* context.Canceled *)
| CtxDeadlineExceeded.                       (* context.DeadlineExceeded *)

Definition errno_eqb (a b : errno) : bool :=
  match a, b with
  | ENOENT, ENOENT | EACCES, EACCES | ENOEXEC, ENOEXEC
  | EMFILE, EMFILE | EPIPE, EPIPE | EISDIR, EISDIR => true
  | _, _ => false
  end.

(** [errors.As(err, &execErr)]: the first [*exec.Error] on the unwrap
    chain of [err]. *)
Fixpoint asExecError (err : error) : option (string * error) :=
  match err with
  | ExecError n inner => Some (n, inner)
  | ErrorfW _ w => asExecError w
  | PathError _ _ w => asExecError w
  | _ => None
  end.

(** [errors.As(err, &pathErr)]: the first [*os.PathError] on the chain. *)
Fixpoint asPathError (err : error) : option (string * string * error) :=
  match err with
  | PathError op p inner => Some (op, p, inner)
  | ErrorfW _ w => asPathError w
  | ExecError _ w => asPathError w
  | _ => None
  end.

(** [errors.Is(err, exec.ErrNotFound)]. *)
Fixpoint isExecErrNotFound (err : error) : bool :=
  match err with
  | ExecErrNotFound => true
  | ErrorfW _ w => isExecErrNotFound w
  | ExecError _ w => isExecErrNotFound w
  | PathError _ _ w => isExecErrNotFound w
  | _ => false
  end.

(** [errors.Is(err, target)] for a [syscall.Errno] target. *)
Fixpoint isErrno (target : errno) (err : error) : bool :=
  match err with
  | Errno e => errno_eqb e target
  | ErrorfW _ w => isErrno target w
  | ExecError _ w => isErrno target w
  | PathError _ _ w => isErrno target w
  | _ => false
  end.

(** isNotFound reports whether err indicates the executable was not
    found. *)
Definition isNotFound (err : error) : bool :=
  match asExecError err with
  | Some (_, inner) => isExecErrNotFound inner
  | None =>
      match asPathError err with
      | Some (_, _, inner) => isErrno ENOENT inner
      | None => false
      end
  end.

End Errors.
Export Errors.

(* ================================================================== *)
(** * Events and the traced-result monad                                *)
(* ================================================================== *)

(** What the code does to the outside world, in the order it does it.
    The three events of the writer goroutine ([WriteStdin], [CloseStdin],
    [WriterDone]) happen on another goroutine; [JoinWriter] is the return of
    [wg.Wait()] on the calling goroutine, which happens after them. *)
Inductive event :=
| StdinPipe                                         (* cmd.StdinPipe() *)
| StartAttempt (exe : string) (args : list string) (tee : bool)
                                                    (* cmd.Start() *)
| ProcessCreated                                    (* Start returned nil *)
| GoWriter                                          (* go func() { ... }() *)
| WriteStdin (payload : list Z)                     (* stdinPipe.Write *)
| CloseStdin                                        (* stdinPipe.Close *)
| WriterDone                                        (* wg.Done() *)
| JoinWriter                                        (* wg.Wait() *)
| KillProcess                                       (* cmd.Process.Kill() *)
| WaitProcess                                       (* cmd.Wait() *)
| SemSend                                           (* c.sem <- struct{}{} *)
| SemRecv                                           (* <-c.sem *)
| OpenFile (path : string)                          (* os.Open *)
| CloseFile (path : string)                         (* f.Close() *)
| ReadClock                                         (* time.Now / time.Since *)
| HTTPDo (method url : string)                      (* s.http.Do(req) *)
| ReadBody                                          (* io.ReadAll(resp.Body) *)
| CloseBody                                         (* resp.Body.Close() *)
| LogLine (bytes : nat) (elapsed : Z).       (* the summary line on LogWriter *)

Module Traced.

(** A computation that may fail, together with the events it emitted. *)
Definition M (A : Type) : Type := (error + A) * list event.

Definition ret {A} (a : A) : M A := (inr a, []).
Definition fail {A} (e : error) : M A := (inl e, []).
Definition emit (ev : event) : M unit := (inr tt, [ev]).

Definition bind {A B} (m : M A) (k : A -> M B) : M B :=
  match m with
  | (inl e, tr) => (inl e, tr)
  | (inr a, tr) => let '(r, tr') := k a in (r, tr ++ tr')
  end.

(** Lift the outcome of a library call ([None] is a nil error). *)
Definition check (o : option error) (wrap : error -> error) : M unit :=
  match o with
  | Some e => fail (wrap e)
  | None => ret tt
  end.

(** A deferred call: it runs when the function returns, on every path. *)
Definition defer {A} (m : M A) (ev : event) : M A :=
  (fst m, snd m ++ [ev]).

Definition result {A} (m : M A) : error + A := fst m.
Definition trace {A} (m : M A) : list event := snd m.

End Traced.
Import Traced.

Declare Scope traced_scope.
Delimit Scope traced_scope with traced.
Notation "x <- m ;; k" := (bind m (fun x => k))
  (at level 61, m at next level, right associativity) : traced_scope.
Notation "m ;;; k" := (bind m (fun _ => k))
  (at level 61, right associativity) : traced_scope.

(* ================================================================== *)
(** * The subprocess runner (runner.go)                                 *)
(* ================================================================== *)

Module Runner.

Local Open Scope string_scope.

(** runResult holds the captured output of a subprocess run. *)
Record runResult := { stdout : list Z; stderr : string }.

Record runner := { executablePath : string; logWriter : bool }.

(** What the operating system answers during one call of [run]. *)
Record proc_env := {
  pipe_err : option error;     (* cmd.StdinPipe() *)
  start_err : option error;    (* cmd.Start() *)
  write_err : option error;    (* stdinPipe.Write(stdinPayload) *)
  wait_err : option error;     (* cmd.Wait() *)
  ctx_err : option error;      (* ctx.Err() once Wait has returned *)
  exit_code : Z;               (* cmd.ProcessState.ExitCode() *)
  out_bytes : list Z;          (* what the process wrote to stdout *)
  err_text : string            (* what the process wrote to stderr *)
}.

(** The prefix [truncate] puts before an excerpt, byte for byte as it
    stands in runner.go (seven bytes). *)
Definition ellipsis : string := "â€¦".

(** truncate keeps at most n bytes from the end of s. *)
Definition truncate (s : string) (n : nat) : string :=
  if (String.length s <=? n)%nat then s
  else ellipsis ++ substring (String.length s - n) n s.

Local Open Scope traced_scope.

(** run spawns one subprocess, writes the payload to its stdin and
    collects its output. The code launches the writer goroutine and joins
    it with [wg.Wait()] before it goes on, so the events of the two
    goroutines are totally ordered and are listed in that order. *)
Definition run (r : runner) (w : proc_env) (args : list string)
    (stdinPayload : list Z) : M runResult :=
  let exe := if (executablePath r =? "")%string then "pocket-tts"
             else executablePath r in
  emit StdinPipe ;;;
  check (pipe_err w) (ErrorfW "pockettts: create stdin pipe") ;;;
  emit (StartAttempt exe args (logWriter r)) ;;;
  check (start_err w)
    (fun err => if isNotFound err then ErrExecutableNotFound exe
                else ErrorfW "pockettts: start process" err) ;;;
  emit ProcessCreated ;;;
  (* the writer goroutine, and the join on it *)
  emit GoWriter ;;;
  emit (WriteStdin stdinPayload) ;;;
  emit CloseStdin ;;;
  emit WriterDone ;;;
  emit JoinWriter ;;;
  match write_err w with
  | Some stdinErr =>
      emit KillProcess ;;;
      fail (ErrorfW "pockettts: write stdin" stdinErr)
  | None =>
      emit WaitProcess ;;;
      let res := {| stdout := out_bytes w;
                    stderr := truncate (err_text w) 512 |} in
      match wait_err w with
      | Some _ =>
          match ctx_err w with
          | Some _ => fail (ErrProcessTimeout (stderr res))
          | None => fail (ErrNonZeroExit (exit_code w) (stderr res))
          end
      | None => ret res
      end
  end.

End Runner.
Export Runner.

(* ================================================================== *)
(** * Strings and formatting (format.go, and what [strings] provides)    *)
(* ================================================================== *)

Module GoStrings.

Local Open Scope string_scope.

Definition code (a : ascii) : N := N_of_ascii a.

(** [[]byte(s)] *)
Definition bytes_of_string (s : string) : list Z :=
  map (fun a => Z.of_N (code a)) (list_ascii_of_string s).

(** The white space of [unicode.IsSpace], by the length of its UTF-8
    encoding: the six ASCII characters; U+0085 and U+00A0; U+1680,
    U+2000..U+200A, U+2028, U+2029, U+202F, U+205F and U+3000. *)
Definition space1 (a : ascii) : bool :=
  let n := code a in ((9 <=? n) && (n <=? 13) || (n =? 32))%N.

Definition space2 (a b : ascii) : bool :=
  ((code a =? 194) && ((code b =? 133) || (code b =? 160)))%N.

Definition space3 (a b c : ascii) : bool :=
  let '(x, y, z) := (code a, code b, code c) in
  ((x =? 225) && (y =? 154) && (z =? 128)
   || (x =? 226) && (y =? 128)
      && ((128 <=? z) && (z <=? 138) || (z =? 168) || (z =? 169) || (z =? 175))
   || (x =? 226) && (y =? 129) && (z =? 159)
   || (x =? 227) && (y =? 128) && (z =? 128))%N.

(** [strings.TrimLeftFunc(s, unicode.IsSpace)] *)
Fixpoint trimLeftSpace (s : string) : string :=
  match s with
  | String a s1 =>
      if space1 a then trimLeftSpace s1 else
      match s1 with
      | String b s2 =>
          if space2 a b then trimLeftSpace s2 else
          match s2 with
          | String c s3 => if space3 a b c then trimLeftSpace s3 else s
          | EmptyString => s
          end
      | EmptyString => s
      end
  | EmptyString => s
  end.

(** The same from the end, on the reversed list of bytes. *)
Fixpoint trimRevSpace (l : list ascii) : list ascii :=
  match l with
  | a :: l1 =>
      if space1 a then trimRevSpace l1 else
      match l1 with
      | b :: l2 =>
          if space2 b a then trimRevSpace l2 else
          match l2 with
          | c :: l3 => if space3 c b a then trimRevSpace l3 else l
          | [] => l
          end
      | [] => l
      end
  | [] => l
  end.

(** [strings.TrimRightFunc(s, unicode.IsSpace)] *)
Definition trimRightSpace (s : string) : string :=
  string_of_list_ascii (rev (trimRevSpace (rev (list_ascii_of_string s)))).

(** [strings.TrimSpace]: all leading and trailing white space removed. *)
Definition TrimSpace (s : string) : string :=
  trimRightSpace (trimLeftSpace s).

(** The UTF-8 encodings of the white-space characters. *)
Definition chr (n : N) : ascii := ascii_of_N n.
Definition enc1 (x : N) : string := String (chr x) "".
Definition enc2 (x y : N) : string := String (chr x) (String (chr y) "").
Definition enc3 (x y z : N) : string :=
  String (chr x) (String (chr y) (String (chr z) "")).

Definition white_space : list string :=
  (map enc1 [9; 10; 11; 12; 13; 32]%N
   ++ [enc2 194 133; enc2 194 160; enc3 225 154 128]
   ++ map (enc3 226 128)
        [128; 129; 130; 131; 132; 133; 134; 135; 136; 137; 138]%N
   ++ [enc3 226 128 168; enc3 226 128 169; enc3 226 128 175;
       enc3 226 129 159; enc3 227 128 128])%list.

(** A text that is empty or consists solely of white space. *)
Inductive blank : string -> Prop :=
| blank_nil : blank ""
| blank_cons (sp rest : string) :
    In sp white_space -> blank rest -> blank (sp ++ rest).

(** formatInt: [fmt.Sprintf("%d", n)] *)
Definition formatInt (n : Z) : string := NilZero.string_of_int (Z.to_int n).

(** [filepath.Base] on a slash-separated path. *)
Definition is_sep (a : ascii) : bool := (code a =? 47)%N.

Fixpoint dropWhile {A} (p : A -> bool) (l : list A) : list A :=
  match l with
  | x :: l' => if p x then dropWhile p l' else l
  | [] => []
  end.

Fixpoint takeWhile {A} (p : A -> bool) (l : list A) : list A :=
  match l with
  | x :: l' => if p x then x :: takeWhile p l' else []
  | [] => []
  end.

Definition Base (path : string) : string :=
  if path =? "" then "."
  else
    let stripped := dropWhile is_sep (rev (list_ascii_of_string path)) in
    let last := rev (takeWhile (fun a => negb (is_sep a)) stripped) in
    match last with
    | [] => "/"
    | _ => string_of_list_ascii last
    end.

End GoStrings.
Export GoStrings.

(* ================================================================== *)
(** * The payload validator (parseWAVHeader) and the test header        *)
(* ================================================================== *)

Module WAV.

Local Open Scope string_scope.

Definition byte_at (data : list Z) (i : nat) : Z := nth i data 0.

(** Little-endian reads at a fixed offset. *)
Definition le16 (data : list Z) (off : nat) : Z :=
  byte_at data off + 256 * byte_at data (off + 1).

Definition le32 (data : list Z) (off : nat) : Z :=
  byte_at data off + 256 * byte_at data (off + 1)
  + 65536 * byte_at data (off + 2) + 16777216 * byte_at data (off + 3).

(** [data[lo:hi]] *)
Definition slice (data : list Z) (lo hi : nat) : list Z :=
  firstn (hi - lo) (skipn lo data).

Definition bytes_eqb (a b : list Z) : bool :=
  if list_eq_dec Z.eq_dec a b then true else false.

(** The state a decoder is left in by [ReadInfo]. *)
Record Decoder := {
  SampleRate : Z;     (* uint32 *)
  NumChans : Z;       (* uint16 *)
  BitDepth : Z;       (* uint16 *)
  Err : option error
}.

Section WithDecoder.

(** The decoder of the external package [github.com/cwbudde/wav], whose
    source is not part of the repository:
    [wav.NewDecoder(bytes.NewReader(data))] followed by [ReadInfo()], as
    the state the decoder is left in. It is a parameter of everything
    that validates a payload, and nothing is assumed about it. *)
Variable ReadInfo : list Z -> Decoder.

(** parseWAVHeader reads WAV metadata from data and returns format
    information: (sampleRate, channels, bitsPerSample). *)
Definition parseWAVHeader (data : list Z) : error + (Z * Z * Z) :=
  if (List.length data =? 0)%nat then
    inl (Errorf ("pockettts: WAV output too short ("
                 ++ formatInt (Z.of_nat (List.length data)) ++ " bytes)"))
  else
    let dec := ReadInfo data in
    match Err dec with
    | Some e => inl (ErrorfW "pockettts: output is not a readable WAV file" e)
    | None =>
        if ((SampleRate dec =? 0) || (NumChans dec =? 0) || (BitDepth dec =? 0))%Z
        then inl (Errorf "pockettts: output WAV metadata is incomplete")
        else inr (SampleRate dec, NumChans dec, BitDepth dec)
    end.

End WithDecoder.

(** The spec's MalformedPayload category: the three errors with which
    [parseWAVHeader] rejects a payload. *)
Definition MalformedPayload (e : error) : Prop :=
  match e with
  | Errorf msg =>
      msg = "pockettts: WAV output too short (0 bytes)"
      \/ msg = "pockettts: output WAV metadata is incomplete"
  | ErrorfW msg _ => msg = "pockettts: output is not a readable WAV file"
  | _ => False
  end.

(** Conversions to the unsigned types of the test helper. *)
Definition u8 (v : Z) : Z := v mod 256.
Definition u16 (v : Z) : Z := v mod 65536.
Definition u32 (v : Z) : Z := v mod 4294967296.

(** [copy(h[off:], src)]: copies [min(len(h) - off, len(src))] bytes. *)
Definition copy_at (h : list Z) (off : nat) (src : list Z) : list Z :=
  let n := Nat.min (List.length h - off) (List.length src) in
  (firstn off h ++ firstn n src ++ skipn (off + n) h)%list.

(** [putU32(h[off:], v)] and [putU16(h[off:], v)]; every call in
    [makeWAVHeader] is within the 44 bytes. *)
Definition putU32 (h : list Z) (off : nat) (v : Z) : list Z :=
  copy_at h off
    [u8 v; u8 (Z.shiftr v 8); u8 (Z.shiftr v 16); u8 (Z.shiftr v 24)].

Definition putU16 (h : list Z) (off : nat) (v : Z) : list Z :=
  copy_at h off [u8 v; u8 (Z.shiftr v 8)].

(** makeWAVHeader builds a minimal valid 44-byte PCM WAV header. *)
Definition makeWAVHeader (sampleRate channels bitsPerSample : Z) : list Z :=
  let dataSize := 0 in
  let h := repeat 0 44 in
  let h := copy_at h 0 (bytes_of_string "RIFF") in
  let h := putU32 h 4 (36 + dataSize) in
  let h := copy_at h 8 (bytes_of_string "WAVE") in
  let h := copy_at h 12 (bytes_of_string "fmt ") in
  let h := putU32 h 16 16 in
  let h := putU16 h 20 1 in
  let h := putU16 h 22 channels in
  let h := putU32 h 24 sampleRate in
  let byteRate := u32 (u32 (sampleRate * u32 channels) * u32 bitsPerSample) / 8 in
  let h := putU32 h 28 byteRate in
  let blockAlign := u16 (channels * bitsPerSample) / 8 in
  let h := putU16 h 32 blockAlign in
  let h := putU16 h 34 bitsPerSample in
  let h := copy_at h 36 (bytes_of_string "data") in
  let h := putU32 h 40 dataSize in
  h.

End WAV.
Export WAV.

(* ================================================================== *)
(** * The one-shot client (pockettts.go, client.go)                     *)
(* ================================================================== *)

Module CLI.

Local Open Scope string_scope.

(** Options controls optional parameters passed to the pocket-tts CLI.
    All zero values use the CLI's built-in defaults. *)
Record Options := {
  Voice : string;
  Config : string;
  Temperature : float;
  LSDDecodeSteps : Z;
  NoiseClamp : float;
  EOSThreshold : float;
  FramesAfterEOS : Z;
  MaxTokens : Z;
  Quiet : bool;
  ExecutablePath : string;
  LogWriter : bool;          (* is a writer set (non-nil) *)
  Concurrency : Z
}.

(** [&Options{}] *)
Definition zeroOptions : Options :=
  {| Voice := ""; Config := ""; Temperature := 0%float; LSDDecodeSteps := 0;
     NoiseClamp := 0%float; EOSThreshold := 0%float; FramesAfterEOS := 0;
     MaxTokens := 0; Quiet := false; ExecutablePath := ""; LogWriter := false;
     Concurrency := 0 |}.

(** GenerationStats: Duration in nanoseconds, as [time.Duration]. *)
Record GenerationStats := { Duration : Z }.

Record WAVResult := {
  Data : list Z;
  SampleRate : Z;
  Channels : Z;
  BitsPerSample : Z;
  Stats : GenerationStats
}.

(** Client: the options and the semaphore. [sem] is the capacity of the
    buffered channel, [None] for the nil channel; how many slots are
    taken is the state shared by the calls, passed around as [held]. *)
Record Client := { opts : Options; sem : option nat }.

(** newClient constructs a client from options. *)
Definition newClient (o : Options) : Client :=
  {| opts := o;
     sem := if (0 <? Concurrency o)%Z then Some (Z.to_nat (Concurrency o))
            else None |}.

(** [x != 0] on float64. *)
Definition fnonzero (x : float) : bool := negb (PrimFloat.eqb x 0%float).

Section WithFormatFloat.

(** formatFloat: [strconv.FormatFloat(f, 'f', -1, 64)], taken as given. *)
Variable formatFloat : float -> string.

(** The decoder [parseWAVHeader] calls, taken as given. *)
Variable ReadInfo : list Z -> Decoder.

(** buildArgs constructs the CLI argument slice for
    [pocket-tts generate]. *)
Definition buildArgs (c : Client) : list string :=
  let o := opts c in
  let args := ["generate"; "--text"; "-"; "--output-path"; "-"] in
  let args := if negb (Voice o =? "")
              then (args ++ ["--voice"; Voice o])%list else args in
  let args := if negb (Config o =? "")
              then (args ++ ["--config"; Config o])%list else args in
  let args := if fnonzero (Temperature o)
              then (args ++ ["--temperature"; formatFloat (Temperature o)])%list
              else args in
  let args := if negb (LSDDecodeSteps o =? 0)%Z
              then (args ++ ["--lsd-decode-steps"; formatInt (LSDDecodeSteps o)])%list
              else args in
  let args := if fnonzero (NoiseClamp o)
              then (args ++ ["--noise-clamp"; formatFloat (NoiseClamp o)])%list
              else args in
  let args := if fnonzero (EOSThreshold o)
              then (args ++ ["--eos-threshold"; formatFloat (EOSThreshold o)])%list
              else args in
  let args := if negb (FramesAfterEOS o =? 0)%Z
              then (args ++ ["--frames-after-eos"; formatInt (FramesAfterEOS o)])%list
              else args in
  let args := if negb (MaxTokens o =? 0)%Z
              then (args ++ ["--max-tokens"; formatInt (MaxTokens o)])%list
              else args in
  let args := if Quiet o then (args ++ ["--quiet"])%list else args in
  args.

Local Open Scope traced_scope.

(** The part of [generate] that runs once the slot, if any, is held. *)
Definition dispatch (c : Client) (w : proc_env) (text : string)
    : M WAVResult :=
  let args := buildArgs c in
  let r := {| executablePath := ExecutablePath (opts c);
              logWriter := LogWriter (opts c) |} in
  res <- run r w args (bytes_of_string text) ;;
  if (List.length (stdout res) =? 0)%nat then
    fail (ErrNonZeroExit 0 "empty stdout — no WAV produced")
  else
    match parseWAVHeader ReadInfo (stdout res) with
    | inl err => fail err
    | inr (sr, ch, bps) =>
        ret {| Data := stdout res; SampleRate := sr; Channels := ch;
               BitsPerSample := bps; Stats := {| Duration := 0 |} |}
    end.

(** What another goroutine or the context's timer does while the caller
    is parked in the select. *)
Inductive wait_event := SlotFreed | CtxFired.

Inductive select_case := SendCase | DoneCase.

(** Which case of [select { case c.sem <- struct{}{}: ; case
    <-ctx.Done(): }] proceeds: the one that is ready; the runtime's
    choice when both are; none when neither is. *)
Definition select_ready (free done pick_send : bool) : option select_case :=
  match free, done with
  | true, false => Some SendCase
  | false, true => Some DoneCase
  | true, true => Some (if pick_send then SendCase else DoneCase)
  | false, false => None
  end.

(** The caller stays parked until a case is ready. The result is the
    case taken and the occupancy at that moment; [None] when the events
    run out with no case ready (the call never returns). *)
Fixpoint park (cap held : nat) (done pick_send : bool)
    (evs : list wait_event) : option (select_case * nat) :=
  match select_ready (held <? cap)%nat done pick_send with
  | Some c => Some (c, held)
  | None =>
      match evs with
      | [] => None
      | SlotFreed :: evs' => park cap (Nat.pred held) done pick_send evs'
      | CtxFired :: evs' => park cap held true pick_send evs'
      end
  end.

Record gen_env := {
  ctx_done : bool;             (* is ctx done when the select is reached *)
  pick_send : bool;            (* the runtime's choice between ready cases *)
  parked : list wait_event;    (* what happens while the caller is parked *)
  proc : proc_env              (* what the subprocess does *)
}.

(** generate is the core implementation shared by Client.Generate and
    the package-level Generate function. The result is [None] when the
    call never returns; otherwise the traced result and the occupancy
    of the semaphore on return. *)
Definition generate (c : Client) (held : nat) (w : gen_env) (text : string)
    : option (M WAVResult * nat) :=
  if TrimSpace text =? "" then Some (fail ErrEmptyText, held)
  else
    match sem c with
    | Some cap =>
        match park cap held (ctx_done w) (pick_send w) (parked w) with
        | None => None
        | Some (DoneCase, h) =>
            Some (fail (ErrProcessTimeout
                    "context cancelled while waiting for concurrency slot"), h)
        | Some (SendCase, h) =>
            let held_in := S h in                 (* c.sem <- struct{}{} *)
            let out := defer (emit SemSend ;;; dispatch c (proc w) text)
                             SemRecv in
            Some (out, Nat.pred held_in)          (* <-c.sem *)
        end
    | None => Some (dispatch c (proc w) text, held)
    end.

(** Generate (package level): [opts] may be nil. *)
Definition Generate (o : option Options) (w : gen_env) (text : string)
    : option (M WAVResult * nat) :=
  let o := match o with Some o => o | None => zeroOptions end in
  generate (newClient o) 0%nat w text.

End WithFormatFloat.

End CLI.

(* ================================================================== *)
(** * The warm-path client (server.go)                                  *)
(* ================================================================== *)

Module Server.

Import CLI.
Local Open Scope string_scope.

(** ServerOptions controls how the pocket-tts HTTP server is started and
    used. *)
Record ServerOptions := {
  Host : string;
  Port : Z;
  SVoice : string;
  SConfig : string;
  SExecutablePath : string;
  SLogWriter : bool;
  StartupTimeout : Z
}.

Definition host (o : ServerOptions) : string :=
  if Host o =? "" then "localhost" else Host o.

Definition port (o : ServerOptions) : Z :=
  if (Port o =? 0)%Z then 8000 else Port o.

Definition baseURL (o : ServerOptions) : string :=
  "http://" ++ host o ++ ":" ++ formatInt (port o).

Record ServerClient := { sopts : ServerOptions }.

(** ServerGenerateOptions controls per-request parameters for server-mode
    TTS. *)
Record ServerGenerateOptions := {
  VoiceURL : string;
  VoiceWAVPath : string
}.

(** One part of a multipart/form-data body. *)
Inductive part :=
| FormField (name value : string)
| FormFile (field filename : string) (content : list Z).

Record response := {
  StatusCode : Z;
  Body : list Z;
  body_err : option error      (* does reading the body fail *)
}.

(** What the file system, the network and the clock answer during one
    call of [Generate]. *)
Record http_env := {
  fs_open : string -> option error;        (* os.Open(path) *)
  fs_read : string -> error + list Z;      (* io.Copy from the open file *)
  boundary : string;                 (* the writer's random boundary *)
  newreq_err : option error;         (* http.NewRequestWithContext *)
  do_result : error + response;      (* s.http.Do(req) *)
  t_dispatch : Z;                    (* time.Now() before Do, in ns *)
  t_read : Z                         (* the clock when the body is read *)
}.

(** A [multipart.Writer] over a [bytes.Buffer]: the parts written so far.
    Writing to the buffer does not fail, so each operation returns a nil
    error; the code's checks are kept. *)
Definition mwriter := list part.

Definition WriteField (w : mwriter) (name value : string)
    : option error * mwriter :=
  (None, (w ++ [FormField name value])%list).

Definition CreateFormFile (w : mwriter) (field filename : string)
    : option error * mwriter :=
  (None, (w ++ [FormFile field filename []])%list).

(** [io.Copy(part, f)] into the part created last. *)
Definition copy_into_last (w : mwriter) (bytes : list Z) : mwriter :=
  match rev w with
  | FormFile fd fn old :: before =>
      rev (FormFile fd fn (old ++ bytes)%list :: before)
  | _ => w
  end.

Definition Close (w : mwriter) : option error := None.

Definition FormDataContentType (b : string) : string :=
  "multipart/form-data; boundary=" ++ b.

Local Open Scope traced_scope.

(** buildTTSRequest constructs the multipart/form-data body for
    POST /tts: the body's parts and the content type. *)
Definition buildTTSRequest (env : http_env) (text : string)
    (o : ServerGenerateOptions) : M (list part * string) :=
  let finish (w : mwriter) : M (list part * string) :=
    check (Close w) (ErrorfW "pockettts: close multipart writer") ;;;
    ret (w, FormDataContentType (boundary env)) in
  let w : mwriter := [] in
  let '(err, w) := WriteField w "text" text in
  check err (ErrorfW "pockettts: write text field") ;;;
  if negb (VoiceURL o =? "") then
    let '(err, w) := WriteField w "voice_url" (VoiceURL o) in
    check err (ErrorfW "pockettts: write voice_url field") ;;;
    finish w
  else if negb (VoiceWAVPath o =? "") then
    emit (OpenFile (VoiceWAVPath o)) ;;;
    check (fs_open env (VoiceWAVPath o))
      (ErrorfW "pockettts: open voice file") ;;;
    defer
      (let '(err, w) :=
         CreateFormFile w "voice_wav" (Base (VoiceWAVPath o)) in
       check err (ErrorfW "pockettts: create form file") ;;;
       match fs_read env (VoiceWAVPath o) with
       | inl e => fail (ErrorfW "pockettts: copy voice file" e)
       | inr bytes => finish (copy_into_last w bytes)
       end)
      (CloseFile (VoiceWAVPath o))                     (* defer f.Close() *)
  else finish w.

(** Generate sends a POST /tts request to the running pocket-tts server
    and returns the resulting WAV audio. [o] may be nil; [ReadInfo] is
    the decoder [parseWAVHeader] calls. *)
Definition Generate (ReadInfo : list Z -> Decoder) (s : ServerClient)
    (env : http_env) (text : string) (o : option ServerGenerateOptions)
    : M WAVResult :=
  if TrimSpace text =? "" then fail ErrEmptyText
  else
    let o := match o with
             | Some o => o
             | None => {| VoiceURL := ""; VoiceWAVPath := "" |}
             end in
    req <- buildTTSRequest env text o ;;
    check (newreq_err env) (ErrorfW "pockettts: build TTS request") ;;;
    emit ReadClock ;;;
    let start := t_dispatch env in
    emit (HTTPDo "POST" (baseURL (sopts s) ++ "/tts")) ;;;
    match do_result env with
    | inl err => fail (ErrorfW "pockettts: TTS request" err)
    | inr resp =>
        defer
          (if negb (StatusCode resp =? 200)%Z then
             emit ReadBody ;;;
             let errBody := firstn 512 (Body resp) in
             fail (ErrNonZeroExit (StatusCode resp)
                     (string_of_list_ascii
                        (map (fun b => ascii_of_N (Z.to_N b)) errBody)))
           else
             emit ReadBody ;;;
             let wavBytes := Body resp in
             emit ReadClock ;;;
             let elapsed := (t_read env - start)%Z in
             check (body_err resp) (ErrorfW "pockettts: read TTS response") ;;;
             match parseWAVHeader ReadInfo wavBytes with
             | inl err => fail err
             | inr (sr, ch, bps) =>
                 (if SLogWriter (sopts s)
                  then emit (LogLine (List.length wavBytes) elapsed)
                  else ret tt) ;;;
                 ret {| Data := wavBytes; SampleRate := sr; Channels := ch;
                        BitsPerSample := bps;
                        Stats := {| Duration := elapsed |} |}
             end)
          CloseBody                          (* defer resp.Body.Close() *)
    end.

End Server.

(* ================================================================== *)
(** * Preflight and voice export (client.go, exportvoice.go)            *)
(* ================================================================== *)

Module Offline.

Local Open Scope string_scope.

(** preflight checks that the pocket-tts executable is resolvable.
    [lookPath] is what [exec.LookPath] answers: [None] when it finds the
    executable, the error otherwise. *)
Definition preflight (lookPath : string -> option error)
    (executablePath : string) : option error :=
  let exe := if executablePath =? "" then "pocket-tts" else executablePath in
  match lookPath exe with
  | Some _ => Some (ErrExecutableNotFound exe)
  | None => None
  end.

(** ExportVoiceOptions controls optional parameters for the export-voice
    command. *)
Record ExportVoiceOptions := {
  EConfig : string;
  EQuiet : bool;
  EExecutablePath : string;
  ELogWriter : bool
}.

(** The arguments [exportVoice] passes to the runner. *)
Definition exportArgs (audioPath exportPath : string)
    (o : ExportVoiceOptions) : list string :=
  let args := ["export-voice"; audioPath; exportPath] in
  let args := if negb (EConfig o =? "")
              then (args ++ ["--config"; EConfig o])%list else args in
  let args := if EQuiet o then (args ++ ["--quiet"])%list else args in
  args.

Local Open Scope traced_scope.

(** exportVoice is the internal implementation of ExportVoice; the value
    returned is the error alone. *)
Definition exportVoice (w : proc_env) (audioPath exportPath : string)
    (o : ExportVoiceOptions) : M unit :=
  if audioPath =? "" then
    fail (Errorf "pockettts: audioPath must not be empty")
  else if exportPath =? "" then
    fail (Errorf "pockettts: exportPath must not be empty")
  else
    let args := exportArgs audioPath exportPath o in
    let r := {| executablePath := EExecutablePath o;
                logWriter := ELogWriter o |} in
    run r w args [] ;;;
    ret tt.

(** ExportVoice (pockettts.go): [o] may be nil. *)
Definition ExportVoice (w : proc_env) (audioPath exportPath : string)
    (o : option ExportVoiceOptions) : M unit :=
  let o := match o with
           | Some o => o
           | None => {| EConfig := ""; EQuiet := false;
                        EExecutablePath := ""; ELogWriter := false |}
           end in
  exportVoice w audioPath exportPath o.

End Offline.

(* ================================================================== *)
(** * The server supervisor (server.go: Start, Stop, Health)            *)
(* ================================================================== *)

Module Supervisor.

Import Server.
Local Open Scope string_scope.

(** What the supervisor does to the outside world: the events of the
    clients, and the sleep between two polls. *)
Inductive step :=
| Do (ev : event)
| Sleep (ms : Z).                                   (* time.Sleep *)

(** startupTimeout, in nanoseconds: five minutes when none is set. *)
Definition startupTimeout (o : ServerOptions) : Z :=
  if (StartupTimeout o <=? 0)%Z then (5 * 60 * 1000000000)%Z
  else StartupTimeout o.

(** What one call of [Health] meets. *)
Record health_env := {
  hreq_err : option error;           (* http.NewRequestWithContext *)
  hdo : error + Z                    (* s.http.Do(req): the status code *)
}.

Local Open Scope traced_scope.

(** Health calls GET /health and returns nil if the server responds with
    status 200. *)
Definition Health (s : ServerClient) (h : health_env) : M unit :=
  check (hreq_err h) (ErrorfW "pockettts: build health request") ;;;
  emit (HTTPDo "GET" (baseURL (sopts s) ++ "/health")) ;;;
  match hdo h with
  | inl err => fail (ErrorfW "pockettts: health check" err)
  | inr status =>
      defer
        (if negb (status =? 200)%Z then
           fail (Errorf ("pockettts: health check returned status "
                         ++ formatInt status))
         else ret tt)
        CloseBody                          (* defer resp.Body.Close() *)
  end.

(** The arguments [Start] passes to the executable. *)
Definition serveArgs (o : ServerOptions) : list string :=
  let args := ["serve"; "--host"; host o; "--port"; formatInt (port o);
               "--no-reload"] in
  let args := if negb (SVoice o =? "")
              then (args ++ ["--voice"; SVoice o])%list else args in
  let args := if negb (SConfig o =? "")
              then (args ++ ["--config"; SConfig o])%list else args in
  args.

(** What one turn of the polling loop of [Start] observes: the clock read
    by the loop test, the state of the context, and what the health
    check meets if it is made. *)
Record poll := {
  now : Z;                           (* time.Now() in the loop test *)
  ctx_state : option error;          (* ctx.Err() *)
  health : health_env
}.

(** What the operating system, the clock and the network answer during
    one call of [Start]. [polls] lists the turns of the loop in order. *)
Record start_env := {
  spawn_err : option error;          (* cmd.Start() *)
  started_at : Z;                    (* time.Now() when the deadline is set *)
  polls : list poll
}.

Section WithFormatDuration.

(** How [fmt] prints a [time.Duration], taken as given. *)
Variable formatDuration : Z -> string.

(** The polling loop. The result is the error returned ([None] is nil)
    and the steps performed; the whole is [None] when the observations
    run out before the loop ends. *)
Fixpoint poll_loop (s : ServerClient) (deadline : Z) (ps : list poll)
    : option (option error * list step) :=
  match ps with
  | [] => None
  | p :: rest =>
      if (now p <? deadline)%Z then
        match ctx_state p with
        | Some err =>
            Some (Some err, [Do ReadClock; Do KillProcess])
        | None =>
            let '(r, tr) := Health s (health p) in
            match r with
            | inr _ => Some (None, Do ReadClock :: map Do tr)
            | inl _ =>
                match poll_loop s deadline rest with
                | Some (e, more) =>
                    Some (e, (Do ReadClock :: map Do tr)
                             ++ Sleep 500 :: more)%list
                | None => None
                end
            end
        end
      else
        Some (Some (Errorf ("pockettts: server did not become healthy within "
                            ++ formatDuration (startupTimeout (sopts s)))),
              [Do ReadClock; Do KillProcess])
  end.

(** Start launches [pocket-tts serve] as a managed subprocess and waits
    until the /health endpoint responds. [proc] says whether [s.proc] is
    set when the call begins (an earlier [Start] on the same client sets
    it, and nothing clears it). The result is the error returned,
    whether [s.proc] is set afterwards, and the steps performed. *)
Definition Start (s : ServerClient) (proc : bool) (w : start_env)
    : option (option error * bool * list step) :=
  let exe := if SExecutablePath (sopts s) =? "" then "pocket-tts"
             else SExecutablePath (sopts s) in
  let args := serveArgs (sopts s) in
  let attempt := Do (StartAttempt exe args (SLogWriter (sopts s))) in
  match spawn_err w with
  | Some err =>
      (* the assignment [s.proc = cmd] is not reached *)
      Some (Some (if isNotFound err then ErrExecutableNotFound exe
                  else ErrorfW "pockettts: start server" err),
            proc, [attempt])
  | None =>
      let deadline := (started_at w + startupTimeout (sopts s))%Z in
      match poll_loop s deadline (polls w) with
      | Some (e, tr) =>                                 (* s.proc = cmd *)
          Some (e, true,
                (attempt :: Do ProcessCreated :: Do ReadClock :: tr)%list)
      | None => None
      end
  end.

End WithFormatDuration.

(** Stop terminates the managed server process. [proc] says whether
    [s.proc] is set; [kill_err] is what [Process.Kill] answers. *)
Definition Stop (proc : bool) (kill_err : option error)
    : option error * list step :=
  if negb proc then (None, [])
  else
    match kill_err with
    | Some err =>
        (Some (ErrorfW "pockettts: stop server" err), [Do KillProcess])
    | None => (None, [Do KillProcess; Do WaitProcess])
    end.

End Supervisor.

(* ================================================================== *)
(** * Reading traces                                                    *)
(* ================================================================== *)

(** Position of the first event satisfying [p]. *)
Fixpoint first_index (p : event -> bool) (tr : list event) : option nat :=
  match tr with
  | [] => None
  | ev :: tr' => if p ev then Some O else option_map S (first_index p tr')
  end.

(** [precedes p q tr]: both kinds of event occur, and the first [p] comes
    before the first [q]. *)
Definition precedes (p q : event -> bool) (tr : list event) : bool :=
  match first_index p tr, first_index q tr with
  | Some i, Some j => (i <? j)%nat
  | _, _ => false
  end.

Definition is_start_attempt (ev : event) : bool :=
  match ev with StartAttempt _ _ _ => true | _ => false end.
Definition is_created (ev : event) : bool :=
  match ev with ProcessCreated => true | _ => false end.
Definition is_go_writer (ev : event) : bool :=
  match ev with GoWriter => true | _ => false end.
Definition is_join (ev : event) : bool :=
  match ev with JoinWriter => true | _ => false end.
Definition is_wait (ev : event) : bool :=
  match ev with WaitProcess => true | _ => false end.
Definition is_http (ev : event) : bool :=
  match ev with HTTPDo _ _ => true | _ => false end.
Definition is_open (ev : event) : bool :=
  match ev with OpenFile _ => true | _ => false end.
Definition is_sem_send (ev : event) : bool :=
  match ev with SemSend => true | _ => false end.
Definition is_sem_recv (ev : event) : bool :=
  match ev with SemRecv => true | _ => false end.
Definition is_clock (ev : event) : bool :=
  match ev with ReadClock => true | _ => false end.

(** How many events of kind [p] a trace holds. *)
Definition count (p : event -> bool) (tr : list event) : nat :=
  List.length (filter p tr).

(** The call performed an operation of kind [p]. *)
Definition performed {A} (p : event -> bool) (m : M A) : Prop :=
  existsb p (trace m) = true.

(** The order of section 4.2: start, launch the writer, wait for the
    process, and join the writer only afterwards. *)
Definition wait_then_join (tr : list event) : bool :=
  precedes is_created is_go_writer tr
  && precedes is_go_writer is_wait tr
  && precedes is_wait is_join tr.

(** The executable [run] resolves. *)
Definition exe_of (r : runner) : string :=
  if (executablePath r =? "")%string then "pocket-tts"%string
  else executablePath r.

(* ================================================================== *)
(** * More vocabulary for traces and errors                             *)
(* ================================================================== *)

Definition is_pipe (ev : event) : bool :=
  match ev with StdinPipe => true | _ => false end.
Definition is_kill (ev : event) : bool :=
  match ev with KillProcess => true | _ => false end.
Definition is_close_file (ev : event) : bool :=
  match ev with CloseFile _ => true | _ => false end.
Definition is_close_body (ev : event) : bool :=
  match ev with CloseBody => true | _ => false end.

(** The errors on the unwrap chain of [err], outermost first. *)
Fixpoint chain (err : error) : list error :=
  err :: match err with
         | ErrorfW _ w => chain w
         | ExecError _ w => chain w
         | PathError _ _ w => chain w
         | _ => []
         end.

(** The stderr excerpt an error of the package carries, if it has one. *)
Definition excerpt_of (e : error) : option string :=
  match e with
  | ErrProcessTimeout s => Some s
  | ErrNonZeroExit _ s => Some s
  | _ => None
  end.

(** The options [Server.Generate] works with: a nil pointer stands for
    the empty options. *)
Definition given (o : option Server.ServerGenerateOptions)
    : Server.ServerGenerateOptions :=
  match o with
  | Some o => o
  | None => {| Server.VoiceURL := ""; Server.VoiceWAVPath := "" |}
  end.

(** The sleeps among the steps of the supervisor. *)
Definition is_sleep (st : Supervisor.step) : bool :=
  match st with Supervisor.Sleep _ => true | _ => false end.

(** A turn of the polling loop after which [Start] keeps waiting: the
    deadline is not reached, the context is live, the health check
    fails. *)
Definition keeps_waiting (s : Server.ServerClient) (deadline : Z)
    (p : Supervisor.poll) : Prop :=
  Supervisor.now p < deadline /\ Supervisor.ctx_state p = None
  /\ exists e, result (Supervisor.Health s (Supervisor.health p)) = inl e.

(** The executable [Start] resolves, and the instant at which it gives
    up. *)
Definition server_exe (s : Server.ServerClient) : string :=
  if (Server.SExecutablePath (Server.sopts s) =? "")%string
  then "pocket-tts"%string
  else Server.SExecutablePath (Server.sopts s).

Definition deadline_of (s : Server.ServerClient) (w : Supervisor.start_env)
    : Z :=
  Supervisor.started_at w + Supervisor.startupTimeout (Server.sopts s).

(** The run a call of [generate] performs, if it gets that far. *)
Definition run_of (formatFloat : float -> string) (c : CLI.Client)
    (w : CLI.gen_env) (text : string) : M runResult :=
  run {| executablePath := CLI.ExecutablePath (CLI.opts c);
         logWriter := CLI.LogWriter (CLI.opts c) |}
      (CLI.proc w) (CLI.buildArgs formatFloat c) (bytes_of_string text).

(** What [generate] makes of the outcome of its run: the checks that
    follow the call of [run] in [dispatch]. *)
Definition verdict (ReadInfo : list Z -> Decoder) (m : M runResult)
    : error + CLI.WAVResult :=
  match result m with
  | inl e => inl e
  | inr res =>
      if (List.length (stdout res) =? 0)%nat then
        inl (ErrNonZeroExit 0 "empty stdout — no WAV produced")
      else
        match parseWAVHeader ReadInfo (stdout res) with
        | inl e => inl e
        | inr (sr, ch, bps) =>
            inr {| CLI.Data := stdout res; CLI.SampleRate := sr;
                   CLI.Channels := ch; CLI.BitsPerSample := bps;
                   CLI.Stats := {| CLI.Duration := 0 |} |}
        end
  end.



(* ================================================================== *)
(** * The argument list, row by row                                  *)
(* ================================================================== *)

(** The flags of the mapping table of [buildArgs]. *)
Definition option_flags : list string :=
  ["--voice"; "--config"; "--temperature"; "--lsd-decode-steps";
   "--noise-clamp"; "--eos-threshold"; "--frames-after-eos"; "--max-tokens";
   "--quiet"]%string.

Definition base_args : list string :=
  ["generate"; "--text"; "-"; "--output-path"; "-"]%string.

(** One row of the mapping table: the flag, whether the option is set, and
    the values that follow the flag. *)
Definition segment (row : string * bool * list string) : list string :=
  let '(flag, set, values) := row in if set then flag :: values else [].

(** [flag] immediately followed by [value], and [flag] nowhere else. *)
Definition once (flag value : string) (args : list string) : Prop :=
  exists pre post,
    args = pre ++ flag :: value :: post /\ ~ In flag pre /\ ~ In flag post.

(** The mapping table in the comment of [buildArgs], row by row. *)
Definition settings (formatFloat : float -> string) (o : CLI.Options)
    : list (string * bool * list string) :=
  [("--voice"%string, negb (CLI.Voice o =? "")%string, [CLI.Voice o]);
   ("--config"%string, negb (CLI.Config o =? "")%string, [CLI.Config o]);
   ("--temperature"%string, CLI.fnonzero (CLI.Temperature o),
      [formatFloat (CLI.Temperature o)]);
   ("--lsd-decode-steps"%string, negb (CLI.LSDDecodeSteps o =? 0)%Z,
      [formatInt (CLI.LSDDecodeSteps o)]);
   ("--noise-clamp"%string, CLI.fnonzero (CLI.NoiseClamp o),
      [formatFloat (CLI.NoiseClamp o)]);
   ("--eos-threshold"%string, CLI.fnonzero (CLI.EOSThreshold o),
      [formatFloat (CLI.EOSThreshold o)]);
   ("--frames-after-eos"%string, negb (CLI.FramesAfterEOS o =? 0)%Z,
      [formatInt (CLI.FramesAfterEOS o)]);
   ("--max-tokens"%string, negb (CLI.MaxTokens o =? 0)%Z,
      [formatInt (CLI.MaxTokens o)]);
   ("--quiet"%string, CLI.Quiet o, [])].

(** Every option at its zero value. *)
Definition all_zero (o : CLI.Options) : Prop :=
  CLI.Voice o = EmptyString /\ CLI.Config o = EmptyString
  /\ CLI.fnonzero (CLI.Temperature o) = false
  /\ CLI.LSDDecodeSteps o = 0%Z
  /\ CLI.fnonzero (CLI.NoiseClamp o) = false
  /\ CLI.fnonzero (CLI.EOSThreshold o) = false
  /\ CLI.FramesAfterEOS o = 0%Z
  /\ CLI.MaxTokens o = 0%Z /\ CLI.Quiet o = false.

(** Every option away from its zero value. *)
Definition all_set (o : CLI.Options) : Prop :=
  CLI.Voice o <> EmptyString /\ CLI.Config o <> EmptyString
  /\ CLI.fnonzero (CLI.Temperature o) = true
  /\ CLI.LSDDecodeSteps o <> 0%Z
  /\ CLI.fnonzero (CLI.NoiseClamp o) = true
  /\ CLI.fnonzero (CLI.EOSThreshold o) = true
  /\ CLI.FramesAfterEOS o <> 0%Z
  /\ CLI.MaxTokens o <> 0%Z /\ CLI.Quiet o = true.

(* ================================================================== *)
(** * Concrete inputs                                                *)
(* ================================================================== *)

(** A run in which nothing fails, and three that fail: an executable that
    is not on the PATH, a process killed by its deadline, and a process
    that exits with code 1. *)
Definition no_failure : proc_env :=
  {| pipe_err := None; start_err := None; write_err := None; wait_err := None;
     ctx_err := None; exit_code := 0; out_bytes := []; err_text := "" |}.

Definition env_not_found : proc_env :=
  {| pipe_err := None;
     start_err := Some (ExecError "pocket-tts" ExecErrNotFound);
     write_err := None; wait_err := None; ctx_err := None; exit_code := 0;
     out_bytes := []; err_text := "" |}.

Definition env_deadline : proc_env :=
  {| pipe_err := None; start_err := None; write_err := None;
     wait_err := Some (ExitError (-1)); ctx_err := Some CtxDeadlineExceeded;
     exit_code := -1; out_bytes := []; err_text := "" |}.

Definition env_exit_1 : proc_env :=
  {| pipe_err := None; start_err := None; write_err := None;
     wait_err := Some (ExitError 1); ctx_err := None;
     exit_code := 1; out_bytes := []; err_text := "boom" |}.

Definition default_runner : runner :=
  {| executablePath := ""; logWriter := false |}.

(** Concrete inputs: the text of the tests, a client with one slot, and a
    subprocess that prints a valid 44-byte header and exits with code 0. *)
Definition white_text : string :=
  (enc1 32 ++ enc1 32 ++ enc1 9 ++ enc1 10 ++ enc2 194 160 ++ enc1 32
   ++ "")%string.

Definition plain_format : float -> string := fun _ => "0.5"%string.

(** A decoder for the examples. It stands for no library: it asks for
    the RIFF tag at the start, takes the chunk that follows the 12 bytes
    of the RIFF header for the format chunk when it is tagged [fmt ], and
    reads the three fields from it, as a decoder that finds the format
    chunk by its tag does; where that chunk is missing it decodes nothing
    and reports no error. *)
Definition failed (msg : string) : Decoder :=
  {| WAV.SampleRate := 0; NumChans := 0; BitDepth := 0;
     Err := Some (Errorf msg) |}.

Definition example_decoder (data : list Z) : Decoder :=
  if negb (bytes_eqb (slice data 0 4) (bytes_of_string "RIFF"))
  then failed "wav: not a RIFF container"
  else if negb (bytes_eqb (slice data 12 16) (bytes_of_string "fmt "))
  then {| WAV.SampleRate := 0; NumChans := 0; BitDepth := 0; Err := None |}
  else {| WAV.SampleRate := le32 data 24;
          NumChans := le16 data 22;
          BitDepth := le16 data 34;
          Err := None |}.





Definition one_slot : CLI.Client :=
  CLI.newClient
    {| CLI.Voice := ""; CLI.Config := ""; CLI.Temperature := 0%float;
       CLI.LSDDecodeSteps := 0; CLI.NoiseClamp := 0%float;
       CLI.EOSThreshold := 0%float; CLI.FramesAfterEOS := 0;
       CLI.MaxTokens := 0; CLI.Quiet := true; CLI.ExecutablePath := "";
       CLI.LogWriter := false; CLI.Concurrency := 1 |}.

Definition prints_header : proc_env :=
  {| pipe_err := None; start_err := None; write_err := None; wait_err := None;
     ctx_err := None; exit_code := 0;
     out_bytes := makeWAVHeader 24000 1 16; err_text := "" |}.

Definition calm (p : proc_env) : CLI.gen_env :=
  {| CLI.ctx_done := false; CLI.pick_send := true; CLI.parked := [];
     CLI.proc := p |}.

Definition expires_while_parked : CLI.gen_env :=
  {| CLI.ctx_done := false; CLI.pick_send := true;
     CLI.parked := [CLI.CtxFired]; CLI.proc := prints_header |}.

Definition any_server : Server.ServerClient :=
  {| Server.sopts :=
       {| Server.Host := ""; Server.Port := 0; Server.SVoice := "";
          Server.SConfig := ""; Server.SExecutablePath := "";
          Server.SLogWriter := false; Server.StartupTimeout := 0 |} |}.

Definition serves (status : Z) (body : list Z) : Server.http_env :=
  {| Server.fs_open := fun _ => Some (PathError "open" "" (Errno ENOENT));
     Server.fs_read := fun _ => inl (Errno EISDIR);
     Server.boundary := "b0";
     Server.newreq_err := None;
     Server.do_result :=
       inr {| Server.StatusCode := status; Server.Body := body;
              Server.body_err := None |};
     Server.t_dispatch := 1000;
     Server.t_read := 251000 |}.

(** The call of the golden test, on a client with one free slot. *)
Definition hello_out : M CLI.WAVResult :=
  match CLI.generate plain_format example_decoder one_slot 0
          (calm prints_header) "Hello." with
  | Some (out, _) => out
  | None => fail ErrEmptyText
  end.

Definition hello_result : CLI.WAVResult :=
  match result hello_out with
  | inr res => res
  | inl _ =>
      {| CLI.Data := []; CLI.SampleRate := 0; CLI.Channels := 0;
         CLI.BitsPerSample := 0; CLI.Stats := {| CLI.Duration := 0 |} |}
  end.

(** The options of the test that sets every field. *)
Definition every_option : CLI.Client :=
  CLI.newClient
    {| CLI.Voice := "mimi"; CLI.Config := "/tmp/cfg.json";
       CLI.Temperature := 0.5%float; CLI.LSDDecodeSteps := 32;
       CLI.NoiseClamp := 1.5%float; CLI.EOSThreshold := 0.25%float;
       CLI.FramesAfterEOS := 4; CLI.MaxTokens := 512; CLI.Quiet := true;
       CLI.ExecutablePath := ""; CLI.LogWriter := false;
       CLI.Concurrency := 0 |}.

(** A voice whose name is spelled like a flag, everything else at zero. *)
Definition voice_named_quiet : CLI.Client :=
  CLI.newClient
    {| CLI.Voice := "--quiet"; CLI.Config := "";
       CLI.Temperature := 0%float; CLI.LSDDecodeSteps := 0;
       CLI.NoiseClamp := 0%float; CLI.EOSThreshold := 0%float;
       CLI.FramesAfterEOS := 0; CLI.MaxTokens := 0; CLI.Quiet := false;
       CLI.ExecutablePath := ""; CLI.LogWriter := false;
       CLI.Concurrency := 0 |}.

Definition both_voices : Server.ServerGenerateOptions :=
  {| Server.VoiceURL := "https://example.com/speaker.wav";
     Server.VoiceWAVPath := "my_speaker.wav" |}.

(* ================================================================== *)
(** * More concrete inputs                                              *)
(* ================================================================== *)

(** Runs that fail in other ways: a broken pipe while the text is
    written, an executable that may not be executed, and a process that
    prints something that is no WAV file. *)
Definition env_broken_pipe : proc_env :=
  {| pipe_err := None; start_err := None; write_err := Some (Errno EPIPE);
     wait_err := None; ctx_err := None; exit_code := 0; out_bytes := [];
     err_text := "" |}.

Definition env_denied : proc_env :=
  {| pipe_err := None;
     start_err := Some (PathError "fork/exec" "/opt/pocket-tts" (Errno EACCES));
     write_err := None; wait_err := None; ctx_err := None; exit_code := 0;
     out_bytes := []; err_text := "" |}.

Definition prints_noise : proc_env :=
  {| pipe_err := None; start_err := None; write_err := None; wait_err := None;
     ctx_err := None; exit_code := 0;
     out_bytes := bytes_of_string "not a wav"; err_text := "" |}.

(** A context that is done before the call, with the runtime picking the
    context's case. *)
Definition done_at_entry : CLI.gen_env :=
  {| CLI.ctx_done := true; CLI.pick_send := false; CLI.parked := [];
     CLI.proc := prints_header |}.

Definition export_defaults : Offline.ExportVoiceOptions :=
  {| Offline.EConfig := ""; Offline.EQuiet := true;
     Offline.EExecutablePath := ""; Offline.ELogWriter := false |}.

(** A local voice file of three bytes, and a server that answers every
    request with status 200 and a valid header. *)
Definition speaker_file : Server.ServerGenerateOptions :=
  {| Server.VoiceURL := ""; Server.VoiceWAVPath := "voices/me.wav" |}.

Definition with_voice_file : Server.http_env :=
  {| Server.fs_open := fun _ => None;
     Server.fs_read := fun _ => inr [1; 2; 3];
     Server.boundary := "b0";
     Server.newreq_err := None;
     Server.do_result :=
       inr {| Server.StatusCode := 200;
              Server.Body := makeWAVHeader 24000 1 16;
              Server.body_err := None |};
     Server.t_dispatch := 1000;
     Server.t_read := 251000 |}.

(** A server that comes up at the second poll, and one that does not come
    up before the startup timeout of five minutes. *)
Definition refused : Supervisor.health_env :=
  {| Supervisor.hreq_err := None;
     Supervisor.hdo := inl (Errorf "connection refused") |}.

Definition healthy : Supervisor.health_env :=
  {| Supervisor.hreq_err := None; Supervisor.hdo := inr 200 |}.

Definition comes_up : Supervisor.start_env :=
  {| Supervisor.spawn_err := None;
     Supervisor.started_at := 0;
     Supervisor.polls :=
       [{| Supervisor.now := 1; Supervisor.ctx_state := None;
           Supervisor.health := refused |};
        {| Supervisor.now := 500000001; Supervisor.ctx_state := None;
           Supervisor.health := healthy |}] |}.

Definition stays_down : Supervisor.start_env :=
  {| Supervisor.spawn_err := None;
     Supervisor.started_at := 0;
     Supervisor.polls :=
       [{| Supervisor.now := 1; Supervisor.ctx_state := None;
           Supervisor.health := refused |};
        {| Supervisor.now := 300000000001; Supervisor.ctx_state := None;
           Supervisor.health := refused |}] |}.

(** An executable that is not on the PATH. *)
Definition cannot_spawn : Supervisor.start_env :=
  {| Supervisor.spawn_err := Some (ExecError "pocket-tts" ExecErrNotFound);
     Supervisor.started_at := 0;
     Supervisor.polls := [] |}.

Definition plain_duration : Z -> string := fun _ => "5m0s"%string.

(** What [Start] does in these two cases, with the default options. *)
Definition spawn_and_first_poll : list Supervisor.step :=
  [Supervisor.Do
     (StartAttempt "pocket-tts"
        ["serve"; "--host"; "localhost"; "--port"; "8000"; "--no-reload"]%string
        false);
   Supervisor.Do ProcessCreated; Supervisor.Do ReadClock;
   Supervisor.Do ReadClock;
   Supervisor.Do (HTTPDo "GET" "http://localhost:8000/health");
   Supervisor.Sleep 500; Supervisor.Do ReadClock].

Definition comes_up_steps : list Supervisor.step :=
  spawn_and_first_poll
  ++ [Supervisor.Do (HTTPDo "GET" "http://localhost:8000/health");
      Supervisor.Do CloseBody].

Definition stays_down_steps : list Supervisor.step :=
  spawn_and_first_poll ++ [Supervisor.Do KillProcess].

(* ================================================================== *)
(** * Properties of the runner                                          *)
(* ================================================================== *)

Section RunnerFacts.

Variables (r : runner) (w : proc_env) (args : list string) (payload : list Z).

Let events_to_join : list event :=
  [StdinPipe; StartAttempt (exe_of r) args (logWriter r); ProcessCreated;
   GoWriter; WriteStdin payload; CloseStdin; WriterDone; JoinWriter].

(** The four shapes a run can take, by the first call that fails. *)
Lemma run_cases :
  (exists e, pipe_err w = Some e /\
     run r w args payload =
       (inl (ErrorfW "pockettts: create stdin pipe" e), [StdinPipe]))
  \/ (exists e, pipe_err w = None /\ start_err w = Some e /\
     run r w args payload =
       (inl (if isNotFound e then ErrExecutableNotFound (exe_of r)
             else ErrorfW "pockettts: start process" e),
        [StdinPipe; StartAttempt (exe_of r) args (logWriter r)]))
  \/ (exists e, pipe_err w = None /\ start_err w = None /\
     write_err w = Some e /\
     run r w args payload =
       (inl (ErrorfW "pockettts: write stdin" e),
        events_to_join ++ [KillProcess]))
  \/ (pipe_err w = None /\ start_err w = None /\ write_err w = None /\
     run r w args payload =
       (match wait_err w with
        | Some _ =>
            match ctx_err w with
            | Some _ => inl (ErrProcessTimeout (truncate (err_text w) 512))
            | None => inl (ErrNonZeroExit (exit_code w)
                             (truncate (err_text w) 512))
            end
        | None => inr {| stdout := out_bytes w;
                         stderr := truncate (err_text w) 512 |}
        end,
        events_to_join ++ [WaitProcess])).
Proof.
  unfold run, exe_of, events_to_join.
  destruct (pipe_err w) as [e|] eqn:Hp; [left; eauto|].
  destruct (start_err w) as [e|] eqn:Hs.
  { right; left. exists e. split; [reflexivity|]. split; [reflexivity|].
    cbn. destruct (isNotFound e); reflexivity. }
  destruct (write_err w) as [e|] eqn:Hw.
  { right; right; left. exists e. repeat (split; [reflexivity|]).
    reflexivity. }
  right; right; right. repeat (split; [reflexivity|]).
  cbn. destruct (wait_err w); [destruct (ctx_err w)|]; reflexivity.
Qed.

(** [cmd.Start] is called exactly when the pipe was created. *)
Lemma start_attempted_iff :
  performed is_start_attempt (run r w args payload) <-> pipe_err w = None.
Proof.
  unfold performed, trace.
  destruct run_cases as [(e & Hp & ->) | [(e & Hp & Hs & ->) |
    [(e & Hp & Hs & Hw & ->) | (Hp & Hs & Hw & ->)]]]; cbn;
    rewrite Hp; split; congruence.
Qed.

(** [cmd.Wait] is called exactly when the pipe, the start and the write
    all succeeded. *)
Lemma wait_performed_iff :
  performed is_wait (run r w args payload) <->
  pipe_err w = None /\ start_err w = None /\ write_err w = None.
Proof.
  unfold performed, trace.
  destruct run_cases as [(e & Hp & ->) | [(e & Hp & Hs & ->) |
    [(e & Hp & Hs & Hw & ->) | (Hp & Hs & Hw & ->)]]]; cbn;
    split; try tauto; try discriminate;
    intros (H1 & H2 & H3); congruence.
Qed.

End RunnerFacts.

(** C1. Classification of the failures of [run]: when [cmd.Start] fails
    with not-found semantics the call returns [ErrExecutableNotFound] and
    no process has been created; when [cmd.Wait] returns an error and the
    context is done, it returns [ErrProcessTimeout] with the stderr
    excerpt, whatever the exit code; when [cmd.Wait] returns an error and
    the context is not done, it returns [ErrNonZeroExit] with the exit code
    of the process and the stderr excerpt. *)
Theorem run_classifies_failures :
  forall (r : runner) (w : proc_env) (args : list string) (payload : list Z),
    (forall err,
        performed is_start_attempt (run r w args payload) ->
        start_err w = Some err -> isNotFound err = true ->
        result (run r w args payload) = inl (ErrExecutableNotFound (exe_of r))
        /\ ~ In ProcessCreated (trace (run r w args payload)))
    /\ (forall err cause,
        performed is_wait (run r w args payload) ->
        wait_err w = Some err -> ctx_err w = Some cause ->
        result (run r w args payload) =
          inl (ErrProcessTimeout (truncate (err_text w) 512)))
    /\ (forall err,
        performed is_wait (run r w args payload) ->
        wait_err w = Some err -> ctx_err w = None ->
        result (run r w args payload) =
          inl (ErrNonZeroExit (exit_code w) (truncate (err_text w) 512))).
Proof.
  intros r w args payload.
  pose proof (start_attempted_iff r w args payload) as Hstart.
  pose proof (wait_performed_iff r w args payload) as Hwait.
  split; [|split].
  - (* the start fails: the run stops after the attempt *)
    intros err Hdone Herr Hnf. apply Hstart in Hdone.
    destruct (run_cases r w args payload) as [(e & Hp & _) |
      [(e & _ & Hs & Hrun) | [(e & _ & Hs & _) | (_ & Hs & _)]]];
      try congruence.
    assert (e = err) by congruence. subst e.
    rewrite Hrun, Hnf. cbn. split; [reflexivity|].
    intros [Hin | [Hin | []]]; discriminate.
  - (* the wait fails and the context is done *)
    intros err cause Hdone Herr Hctx. apply Hwait in Hdone.
    destruct Hdone as (Hp & Hs & Hw).
    destruct (run_cases r w args payload) as [(e & Hp' & _) |
      [(e & _ & Hs' & _) | [(e & _ & _ & Hw' & _) | (_ & _ & _ & Hrun)]]];
      try congruence.
    rewrite Hrun, Herr, Hctx. reflexivity.
  - (* the wait fails and the context is not done *)
    intros err Hdone Herr Hctx. apply Hwait in Hdone.
    destruct Hdone as (Hp & Hs & Hw).
    destruct (run_cases r w args payload) as [(e & Hp' & _) |
      [(e & _ & Hs' & _) | [(e & _ & _ & Hw' & _) | (_ & _ & _ & Hrun)]]];
      try congruence.
    rewrite Hrun, Herr, Hctx. reflexivity.
Qed.

Lemma run_classifies_failures_witness :
  result (run default_runner env_not_found ["generate"%string] [104; 105])
    = inl (ErrExecutableNotFound "pocket-tts")
  /\ result (run default_runner env_deadline ["10"%string] [])
    = inl (ErrProcessTimeout "")
  /\ result (run default_runner env_exit_1 [] [])
    = inl (ErrNonZeroExit 1 "boom").
Proof.
  split; [|split].
  - apply (proj1 (run_classifies_failures default_runner env_not_found
                    ["generate"%string] [104; 105])
             (ExecError "pocket-tts" ExecErrNotFound)); reflexivity.
  - apply (proj1 (proj2 (run_classifies_failures default_runner env_deadline
                           ["10"%string] []))
             (ExitError (-1)) CtxDeadlineExceeded); reflexivity.
  - apply (proj2 (proj2 (run_classifies_failures default_runner env_exit_1
                           [] []))
             (ExitError 1)); reflexivity.
Defined.

(** C2. The order in which [run] performs its steps. The order of section
    4.2 (start, launch the writer, wait for the process, join the writer
    afterwards) is the order of no run: whenever [run] waits for the
    process it has started it, launched the writer and already joined it,
    so the whole payload is written and the input stream closed before
    [cmd.Wait] is called. *)
Theorem run_joins_writer_before_wait :
  forall (r : runner) (w : proc_env) (args : list string) (payload : list Z),
    wait_then_join (trace (run r w args payload)) = false
    /\ (performed is_wait (run r w args payload) ->
        let tr := trace (run r w args payload) in
        precedes is_created is_go_writer tr = true
        /\ precedes is_go_writer is_join tr = true
        /\ precedes is_join is_wait tr = true
        /\ precedes is_wait is_join tr = false).
Proof.
  intros r w args payload.
  pose proof (wait_performed_iff r w args payload) as Hwait.
  destruct (run_cases r w args payload) as [(e & Hp & Hrun) |
    [(e & Hp & Hs & Hrun) | [(e & Hp & Hs & Hw & Hrun) |
    (Hp & Hs & Hw & Hrun)]]];
    rewrite Hrun in *; clear Hrun; cbn [trace snd];
    (split; [reflexivity|]); intros H; try (repeat split; reflexivity);
    apply Hwait in H; destruct H as (H1 & H2 & H3); congruence.
Qed.

Lemma run_joins_writer_before_wait_witness :
  precedes is_join is_wait
    (trace (run default_runner no_failure [] [104; 105])) = true
  /\ precedes is_wait is_join
    (trace (run default_runner no_failure [] [104; 105])) = false.
Proof.
  pose proof (proj2 (run_joins_writer_before_wait default_runner no_failure
                       [] [104; 105])) as H.
  split; apply H; reflexivity.
Defined.

(* ================================================================== *)
(** * Properties of TrimSpace                                           *)
(* ================================================================== *)

Lemma trimLeftSpace_white_space :
  forall sp rest, In sp white_space ->
    trimLeftSpace (sp ++ rest) = trimLeftSpace rest.
Proof.
  intros sp rest Hin. unfold white_space in Hin. cbn in Hin.
  repeat (destruct Hin as [<- | Hin]; [reflexivity|]).
  contradiction.
Qed.

Lemma trimLeftSpace_blank : forall s, blank s -> trimLeftSpace s = ""%string.
Proof.
  induction 1 as [|sp rest Hin _ IH]; [reflexivity|].
  now rewrite trimLeftSpace_white_space.
Qed.

Lemma TrimSpace_blank : forall s, blank s -> TrimSpace s = ""%string.
Proof.
  intros s Hs. unfold TrimSpace. now rewrite trimLeftSpace_blank.
Qed.

Section TrimSpaceConverse.

Local Open Scope string_scope.

Lemma chr_code : forall a, chr (code a) = a.
Proof. intros a. apply ascii_N_embedding. Qed.

Lemma code_inj : forall a n, code a = n -> a = chr n.
Proof. intros a n <-. symmetry. apply chr_code. Qed.

Lemma space1_white : forall a, space1 a = true -> In (String a "") white_space.
Proof.
  intros a H. unfold space1 in H.
  assert (Hn : (code a = 9 \/ code a = 10 \/ code a = 11 \/ code a = 12
                \/ code a = 13 \/ code a = 32)%N).
  { apply orb_true_iff in H. destruct H as [H|H].
    - apply andb_true_iff in H. destruct H as [H1 H2].
      apply N.leb_le in H1, H2. lia.
    - apply N.eqb_eq in H. lia. }
  repeat (destruct Hn as [Hn|Hn]; [apply code_inj in Hn; subst a; cbn; tauto|]).
  apply code_inj in Hn; subst a; cbn; tauto.
Qed.

Lemma space2_white :
  forall a b, space2 a b = true -> In (String a (String b "")) white_space.
Proof.
  intros a b H. unfold space2 in H.
  apply andb_true_iff in H. destruct H as [Ha Hb].
  apply N.eqb_eq, code_inj in Ha. subst a.
  apply orb_true_iff in Hb.
  destruct Hb as [Hb|Hb]; apply N.eqb_eq, code_inj in Hb; subst b; cbn; tauto.
Qed.

Lemma space3_white :
  forall a b c, space3 a b c = true ->
    In (String a (String b (String c ""))) white_space.
Proof.
  intros a b c H. unfold space3 in H.
  repeat rewrite ?orb_true_iff, ?andb_true_iff, ?N.eqb_eq, ?N.leb_le in H.
  assert (Hc : (code a = 225 /\ code b = 154 /\ code c = 128)%N
    \/ (code a = 226 /\ code b = 128 /\
        (code c = 128 \/ code c = 129 \/ code c = 130 \/ code c = 131
         \/ code c = 132 \/ code c = 133 \/ code c = 134 \/ code c = 135
         \/ code c = 136 \/ code c = 137 \/ code c = 138
         \/ code c = 168 \/ code c = 169 \/ code c = 175))%N
    \/ (code a = 226 /\ code b = 129 /\ code c = 159)%N
    \/ (code a = 227 /\ code b = 128 /\ code c = 128)%N) by lia.
  clear H.
  destruct Hc as [(Ha & Hb & Hc) | [(Ha & Hb & Hc) |
    [(Ha & Hb & Hc) | (Ha & Hb & Hc)]]];
    apply code_inj in Ha, Hb; subst a b;
    repeat (destruct Hc as [Hc|Hc]; [apply code_inj in Hc; subst c; cbn; tauto|]);
    apply code_inj in Hc; subst c; cbn; tauto.
Qed.

Lemma append_assoc : forall a b c : string, (a ++ b) ++ c = a ++ (b ++ c).
Proof. induction a as [|x a IH]; intros; cbn; [reflexivity|now rewrite IH]. Qed.

Lemma append_empty_r : forall a : string, a ++ "" = a.
Proof. induction a as [|x a IH]; cbn; [reflexivity|now rewrite IH]. Qed.

Lemma string_of_list_ascii_app :
  forall l1 l2,
    string_of_list_ascii (l1 ++ l2)
      = string_of_list_ascii l1 ++ string_of_list_ascii l2.
Proof. induction l1 as [|x l1 IH]; intros; cbn; [reflexivity|now rewrite IH]. Qed.

Lemma white_space_nonempty :
  forall sp, In sp white_space -> (1 <= String.length sp)%nat.
Proof.
  intros sp H. unfold white_space in H. cbn in H.
  repeat (destruct H as [<- | H]; [cbn; lia|]). contradiction.
Qed.

Lemma length_append :
  forall a b : string,
    String.length (a ++ b) = (String.length a + String.length b)%nat.
Proof. induction a as [|x a IH]; intros; cbn; [reflexivity|now rewrite IH]. Qed.

(** One step of [trimLeftSpace]: it stops, or it drops one white-space
    character. *)
Lemma trimLeftSpace_step :
  forall s,
    trimLeftSpace s = s
    \/ exists sp rest,
         In sp white_space /\ s = sp ++ rest
         /\ trimLeftSpace s = trimLeftSpace rest.
Proof.
  intros s. destruct s as [|a s1]; [now left|].
  cbn [trimLeftSpace]. destruct (space1 a) eqn:H1.
  { right. exists (String a ""), s1. repeat split; auto using space1_white. }
  destruct s1 as [|b s2]; [now left|].
  destruct (space2 a b) eqn:H2.
  { right. exists (String a (String b "")), s2.
    repeat split; auto using space2_white. }
  destruct s2 as [|c s3]; [now left|].
  destruct (space3 a b c) eqn:H3; [|now left].
  right. exists (String a (String b (String c ""))), s3.
  repeat split; auto using space3_white.
Qed.

Lemma trimLeftSpace_empty_blank :
  forall s, trimLeftSpace s = ""%string -> blank s.
Proof.
  intros s. remember (String.length s) as n eqn:Hn.
  revert s Hn. induction n as [n IH] using lt_wf_ind. intros s Hn H.
  destruct (trimLeftSpace_step s) as [Hid | (sp & rest & Hin & -> & Heq)].
  - rewrite Hid in H. subst s. apply blank_nil.
  - apply blank_cons; [assumption|].
    apply (IH (String.length rest)); [|reflexivity|congruence].
    subst n. rewrite length_append.
    pose proof (white_space_nonempty sp Hin). lia.
Qed.

Lemma trimLeftSpace_idempotent :
  forall s, trimLeftSpace (trimLeftSpace s) = trimLeftSpace s.
Proof.
  intros s. remember (String.length s) as n eqn:Hn.
  revert s Hn. induction n as [n IH] using lt_wf_ind. intros s Hn.
  destruct (trimLeftSpace_step s) as [Hid | (sp & rest & Hin & -> & Heq)].
  - now rewrite !Hid.
  - rewrite Heq. apply (IH (String.length rest)); [|reflexivity].
    subst n. rewrite length_append.
    pose proof (white_space_nonempty sp Hin). lia.
Qed.

Lemma blank_snoc :
  forall s sp, blank s -> In sp white_space -> blank (s ++ sp).
Proof.
  intros s sp Hs Hin. induction Hs as [|w rest Hw _ IH].
  - cbn. rewrite <- (append_empty_r sp). apply blank_cons; [assumption|].
    apply blank_nil.
  - rewrite append_assoc. now apply blank_cons.
Qed.

(** The same step from the end. *)
Lemma trimRevSpace_empty_blank :
  forall l, trimRevSpace l = [] -> blank (string_of_list_ascii (rev l)).
Proof.
  intros l. remember (List.length l) as n eqn:Hn.
  revert l Hn. induction n as [n IH] using lt_wf_ind. intros l Hn H.
  destruct l as [|a l1]; [apply blank_nil|].
  cbn [trimRevSpace] in H. destruct (space1 a) eqn:H1.
  { cbn [rev]. rewrite string_of_list_ascii_app.
    apply blank_snoc; [|now apply space1_white].
    apply (IH (List.length l1)); [subst n; cbn; lia|reflexivity|assumption]. }
  destruct l1 as [|b l2]; [discriminate|].
  destruct (space2 b a) eqn:H2.
  { cbn [rev]. rewrite <- app_assoc, string_of_list_ascii_app.
    apply blank_snoc; [|now apply space2_white].
    apply (IH (List.length l2)); [subst n; cbn; lia|reflexivity|assumption]. }
  destruct l2 as [|c l3]; [discriminate|].
  destruct (space3 c b a) eqn:H3; [|discriminate].
  cbn [rev]. rewrite <- !app_assoc, string_of_list_ascii_app.
  apply blank_snoc; [|now apply space3_white].
  apply (IH (List.length l3)); [subst n; cbn; lia|reflexivity|assumption].
Qed.

Lemma trimRightSpace_empty_blank :
  forall s, trimRightSpace s = ""%string -> blank s.
Proof.
  intros s H. unfold trimRightSpace in H.
  assert (Hnil : trimRevSpace (rev (list_ascii_of_string s)) = []).
  { apply (f_equal list_ascii_of_string) in H.
    rewrite list_ascii_of_string_of_list_ascii in H. cbn in H.
    destruct (trimRevSpace _) as [|x l]; [reflexivity|].
    apply (f_equal (@List.length _)) in H. rewrite length_rev in H.
    discriminate. }
  apply trimRevSpace_empty_blank in Hnil.
  now rewrite rev_involutive, string_of_list_ascii_of_string in Hnil.
Qed.

(** [TrimSpace] leaves nothing exactly of the texts that are empty or
    consist solely of white space. *)
Lemma TrimSpace_empty_iff : forall s, TrimSpace s = ""%string <-> blank s.
Proof.
  intros s. split; [|apply TrimSpace_blank].
  unfold TrimSpace. intros H.
  apply trimRightSpace_empty_blank, trimLeftSpace_blank in H.
  rewrite trimLeftSpace_idempotent in H.
  now apply trimLeftSpace_empty_blank.
Qed.

End TrimSpaceConverse.

(* ================================================================== *)
(** * Properties of the one-shot client                                 *)
(* ================================================================== *)

Section ClientFacts.

Import CLI.

Variable formatFloat : float -> string.
Variable ReadInfo : list Z -> Decoder.
Variables (c : Client) (w : gen_env) (text : string).

Let the_run : M runResult :=
  run {| executablePath := ExecutablePath (opts c);
         logWriter := LogWriter (opts c) |}
      (proc w) (buildArgs formatFloat c) (bytes_of_string text).

(** [dispatch] adds no event to those of [run], and turns its output
    into a result. *)
Lemma dispatch_spec :
  dispatch formatFloat ReadInfo c (proc w) text =
    (match result the_run with
     | inl e => inl e
     | inr res =>
         if (List.length (stdout res) =? 0)%nat then
           inl (ErrNonZeroExit 0 "empty stdout — no WAV produced")
         else
           match parseWAVHeader ReadInfo (stdout res) with
           | inl e => inl e
           | inr (sr, ch, bps) =>
               inr {| Data := stdout res; SampleRate := sr; Channels := ch;
                      BitsPerSample := bps; Stats := {| Duration := 0 |} |}
           end
     end,
     trace the_run).
Proof.
  unfold dispatch, the_run, result, trace.
  destruct (run _ _ _ _) as [[e|res] tr]; cbn; [reflexivity|].
  destruct (List.length (stdout res) =? 0)%nat; cbn;
    [now rewrite app_nil_r|].
  destruct (parseWAVHeader ReadInfo (stdout res)) as [e|[[sr ch] bps]]; cbn;
    now rewrite app_nil_r.
Qed.

(** The four ways a call of [generate] returns. *)
Lemma generate_cases :
  forall held out h,
    generate formatFloat ReadInfo c held w text = Some (out, h) ->
    (TrimSpace text = ""%string /\ out = (inl ErrEmptyText, []) /\ h = held)
    \/ (TrimSpace text <> ""%string /\ sem c = None /\
        out = dispatch formatFloat ReadInfo c (proc w) text /\ h = held)
    \/ (TrimSpace text <> ""%string /\ exists cap, sem c = Some cap /\
        park cap held (ctx_done w) (pick_send w) (parked w)
          = Some (DoneCase, h) /\
        out = (inl (ErrProcessTimeout
                  "context cancelled while waiting for concurrency slot"), []))
    \/ (TrimSpace text <> ""%string /\ exists cap, sem c = Some cap /\
        park cap held (ctx_done w) (pick_send w) (parked w)
          = Some (SendCase, h) /\
        result out = result (dispatch formatFloat ReadInfo c (proc w) text) /\
        trace out =
          SemSend :: trace (dispatch formatFloat ReadInfo c (proc w) text) ++ [SemRecv]).
Proof.
  intros held out h. unfold generate.
  destruct (String.eqb_spec (TrimSpace text) "") as [Hb|Hb].
  { intros [= <- <-]. left. auto. }
  destruct (sem c) as [cap|] eqn:Hsem.
  2:{ intros [= <- <-]. right; left. auto. }
  destruct (park cap held _ _ _) as [[[|] h']|] eqn:Hpark; [| |discriminate].
  - intros [= <- <-]. right; right; right. split; [assumption|].
    exists cap. split; [reflexivity|]. split; [exact Hpark|].
    destruct (dispatch formatFloat ReadInfo c (proc w) text) as [[e|res] tr];
      split; reflexivity.
  - intros [= <- <-]. right; right; left. split; [assumption|].
    exists cap. split; [reflexivity|]. split; [exact Hpark|reflexivity].
Qed.

End ClientFacts.

(** The occupancy at which the select fires is the occupancy at the call
    less the slots other goroutines freed meanwhile. *)
Lemma park_occupancy :
  forall cap evs held done pick sc h,
    CLI.park cap held done pick evs = Some (sc, h) ->
    (h <= held)%nat
    /\ (~ In CLI.SlotFreed evs -> h = held)
    /\ (sc = CLI.SendCase -> (h < cap)%nat).
Proof.
  intros cap evs; induction evs as [|ev evs IH]; intros held done pick sc h;
    cbn [CLI.park]; unfold CLI.select_ready;
    destruct (Nat.ltb_spec held cap) as [Hlt|Hge], done, pick;
    try discriminate;
    try (intros [= <- <-]; repeat split; auto; discriminate).
  - destruct ev; intros Hp; apply IH in Hp; destruct Hp as (H1 & H2 & H3).
    + repeat split; [lia| |assumption].
      intros Hno. exfalso. apply Hno. now left.
    + repeat split; [lia| |assumption].
      intros Hno. apply H2. intros Hin. apply Hno. now right.
  - destruct ev; intros Hp; apply IH in Hp; destruct Hp as (H1 & H2 & H3).
    + repeat split; [lia| |assumption].
      intros Hno. exfalso. apply Hno. now left.
    + repeat split; [lia| |assumption].
      intros Hno. apply H2. intros Hin. apply Hno. now right.
Qed.

Lemma white_text_blank : blank white_text.
Proof.
  unfold white_text.
  repeat (apply blank_cons; [cbn; tauto|]). apply blank_nil.
Defined.

(** C3. A text that is empty or consists solely of white space makes both
    clients fail with [ErrEmptyText] without performing any operation: the
    trace is empty (no subprocess, no request, no slot taken) and the
    occupancy of the semaphore is untouched. *)
Theorem blank_text_fails_before_any_operation :
  forall text : string, blank text ->
    (forall formatFloat ReadInfo c held w,
        CLI.generate formatFloat ReadInfo c held w text
          = Some ((inl ErrEmptyText, []), held))
    /\ (forall ReadInfo s env o,
        Server.Generate ReadInfo s env text o = (inl ErrEmptyText, [])).
Proof.
  intros text Hb. apply TrimSpace_blank in Hb. split.
  - intros. unfold CLI.generate. now rewrite Hb.
  - intros. unfold Server.Generate. now rewrite Hb.
Qed.

Lemma blank_text_fails_before_any_operation_witness :
  CLI.generate plain_format example_decoder one_slot 1
      (calm prints_header) white_text
    = Some ((inl ErrEmptyText, []), 1%nat)
  /\ Server.Generate example_decoder any_server
       (serves 200 (makeWAVHeader 24000 1 16)) white_text None
     = (inl ErrEmptyText, []).
Proof.
  destruct (blank_text_fails_before_any_operation white_text white_text_blank)
    as [Hcli Hsrv].
  split; [apply Hcli | apply Hsrv].
Defined.

Section ClientTheorems.

Import CLI.

Variable formatFloat : float -> string.
Variable ReadInfo : list Z -> Decoder.

(** C4. When the subprocess was waited for, exited with code zero and
    left standard output empty, [generate] fails with [ErrNonZeroExit]
    carrying the code 0 and an explanatory message; and no successful
    result has empty data. *)
Theorem empty_stdout_is_an_error :
  forall (c : Client) (held : nat) (w : gen_env) (text : string)
         (out : M WAVResult) (h : nat),
    generate formatFloat ReadInfo c held w text = Some (out, h) ->
    (performed is_wait out -> wait_err (proc w) = None ->
     out_bytes (proc w) = [] ->
     result out = inl (ErrNonZeroExit 0 "empty stdout — no WAV produced"))
    /\ (forall res, result out = inr res -> Data res <> []).
Proof.
  intros c held w text out h Hgen.
  assert (Hd := dispatch_spec formatFloat ReadInfo c w text).
  set (rn := run _ _ _ _) in Hd.
  assert (Hdisp :
    (performed is_wait (dispatch formatFloat ReadInfo c (proc w) text) ->
     wait_err (proc w) = None -> out_bytes (proc w) = [] ->
     result (dispatch formatFloat ReadInfo c (proc w) text)
       = inl (ErrNonZeroExit 0 "empty stdout — no WAV produced"))
    /\ (forall res,
         result (dispatch formatFloat ReadInfo c (proc w) text) = inr res ->
         Data res <> [])).
  { rewrite Hd. cbn [result trace fst snd]. split.
    - intros Hw Hwait Hout. unfold performed in Hw. cbn [trace snd] in Hw.
      apply wait_performed_iff in Hw. destruct Hw as (Hp & Hs & Hwr).
      unfold rn.
      destruct (run_cases
                  {| executablePath := ExecutablePath (opts c);
                     logWriter := LogWriter (opts c) |}
                  (proc w) (buildArgs formatFloat c)
                  (bytes_of_string text)) as [(e & Hp' & Hrun) |
        [(e & Hp' & Hs' & Hrun) | [(e & Hp' & Hs' & Hw' & Hrun) |
        (_ & _ & _ & Hrun)]]]; try congruence.
      rewrite Hrun, Hwait. cbn. now rewrite Hout.
    - intros res. destruct (result rn) as [e|rr]; [intros [=]|].
      destruct (stdout rr) as [|b bs] eqn:Hout; cbn [List.length Nat.eqb];
        [intros [=]|].
      destruct (parseWAVHeader ReadInfo (b :: bs)) as [e|[[sr ch] bps]];
        [intros [=]|].
      intros [= <-]. cbn. discriminate. }
  destruct Hdisp as [Hempty Hdata].
  destruct (generate_cases formatFloat ReadInfo c w text held out h Hgen)
    as [(_ & -> & _) | [(_ & _ & -> & _) |
       [(_ & cap & _ & _ & ->) | (_ & cap & _ & _ & Hres & Htr)]]].
  - split; [intros [=]|intros res [=]].
  - split; assumption.
  - split; [intros [=]|intros res [=]].
  - rewrite Hres. split; [|assumption].
    intros Hw. apply Hempty.
    unfold performed in *. rewrite Htr in Hw. cbn in Hw.
    rewrite existsb_app in Hw. cbn in Hw.
    now rewrite orb_false_r in Hw.
Qed.

(** C5. With a positive concurrency cap and every slot held, a call
    (with a text that is not blank, so that it reaches the select) whose
    context is done before a slot frees fails with [ErrProcessTimeout],
    the message saying that the wait was for a concurrency slot; it
    performs no operation at all, so no subprocess is started. *)
Theorem full_gate_and_done_context_time_out :
  forall (o : Options) (held : nat) (w : gen_env) (text : string),
    (0 < Concurrency o)%Z ->
    held = Z.to_nat (Concurrency o) ->
    ~ blank text ->
    (ctx_done w = true \/ exists rest, parked w = CtxFired :: rest) ->
    generate formatFloat ReadInfo (newClient o) held w text =
      Some ((inl (ErrProcessTimeout
                    "context cancelled while waiting for concurrency slot"),
             []), held).
Proof.
  intros o held w text Hpos -> Hnb Hctx.
  rewrite <- TrimSpace_empty_iff in Hnb.
  unfold generate, newClient. cbn [sem opts].
  destruct (String.eqb_spec (TrimSpace text) "") as [|_]; [contradiction|].
  apply Z.ltb_lt in Hpos. rewrite Hpos.
  destruct Hctx as [Hdone | (rest & Hev)].
  - rewrite Hdone. destruct (parked w); cbn [park select_ready];
      rewrite Nat.ltb_irrefl; reflexivity.
  - rewrite Hev. cbn [park select_ready]. rewrite Nat.ltb_irrefl.
    destruct (ctx_done w); [reflexivity|].
    destruct rest; cbn [park select_ready]; rewrite Nat.ltb_irrefl;
      reflexivity.
Qed.

End ClientTheorems.

Lemma empty_stdout_is_an_error_witness :
  result (CLI.dispatch plain_format example_decoder one_slot no_failure
            "Hello.")
    = inl (ErrNonZeroExit 0 "empty stdout — no WAV produced").
Proof.
  apply (proj1 (empty_stdout_is_an_error plain_format example_decoder
                  one_slot 0 (calm no_failure)
                  "Hello."
                  (defer (bind (emit SemSend)
                            (fun _ => CLI.dispatch plain_format
                                        example_decoder one_slot
                                        no_failure "Hello."))
                         SemRecv)
                  0%nat eq_refl)); reflexivity.
Defined.

Lemma full_gate_and_done_context_time_out_witness :
  CLI.generate plain_format example_decoder one_slot 1
      expires_while_parked "hello"
    = Some ((inl (ErrProcessTimeout
                    "context cancelled while waiting for concurrency slot"),
             []), 1%nat).
Proof.
  apply (full_gate_and_done_context_time_out plain_format example_decoder
           (CLI.opts one_slot) 1 expires_while_parked "hello").
  - reflexivity.
  - reflexivity.
  - intros Hb. apply TrimSpace_empty_iff in Hb. vm_compute in Hb.
    discriminate Hb.
  - right. exists []. reflexivity.
Defined.

(* ================================================================== *)
(** * The admission gate and the timing of a result                     *)
(* ================================================================== *)

Lemma count_app : forall p a b, count p (a ++ b) = (count p a + count p b)%nat.
Proof.
  intros p a b. unfold count. now rewrite filter_app, length_app.
Qed.

(** [run] touches neither the semaphore nor the clock. *)
Lemma run_leaves_gate_and_clock :
  forall r w args payload,
    count is_sem_send (trace (run r w args payload)) = 0%nat
    /\ count is_sem_recv (trace (run r w args payload)) = 0%nat
    /\ count is_clock (trace (run r w args payload)) = 0%nat.
Proof.
  intros r w args payload.
  destruct (run_cases r w args payload) as [(e & _ & ->) |
    [(e & _ & _ & ->) | [(e & _ & _ & _ & ->) | (_ & _ & _ & ->)]]];
    repeat split; reflexivity.
Qed.

Section GateTheorems.

Import CLI.

Variable formatFloat : float -> string.
Variable ReadInfo : list Z -> Decoder.

Lemma dispatch_leaves_gate_and_clock :
  forall c p text,
    count is_sem_send (trace (dispatch formatFloat ReadInfo c p text)) = 0%nat
    /\ count is_sem_recv (trace (dispatch formatFloat ReadInfo c p text)) = 0%nat
    /\ count is_clock (trace (dispatch formatFloat ReadInfo c p text)) = 0%nat.
Proof.
  intros c p text.
  pose proof (dispatch_spec formatFloat ReadInfo c
                {| ctx_done := false; pick_send := false; parked := [];
                   proc := p |} text) as Hd.
  cbn [proc] in Hd. rewrite Hd. cbn [trace snd].
  apply run_leaves_gate_and_clock.
Qed.

(** C6. A call of [generate] gives back the slot it took, on every path
    on which it returns: its trace holds as many receives from the
    semaphore as sends to it, and the occupancy on return is the one at
    which the select fired, which is the occupancy at the call when no
    other goroutine freed a slot meanwhile. With a concurrency cap of
    zero or less the client has no semaphore at all: the channel is nil,
    the call returns without waiting and never touches a semaphore. *)
Theorem generate_releases_its_slot :
  (forall (c : Client) (held : nat) (w : gen_env) (text : string)
          (out : M WAVResult) (h : nat),
      generate formatFloat ReadInfo c held w text = Some (out, h) ->
      count is_sem_send (trace out) = count is_sem_recv (trace out)
      /\ (h <= held)%nat
      /\ (~ In SlotFreed (parked w) -> h = held)
      /\ (forall cap sc h0,
            sem c = Some cap -> ~ blank text ->
            park cap held (ctx_done w) (pick_send w) (parked w)
              = Some (sc, h0) ->
            h = h0))
  /\ (forall (o : Options) (held : nat) (w : gen_env) (text : string),
      (Concurrency o <= 0)%Z ->
      sem (newClient o) = None
      /\ exists out,
          generate formatFloat ReadInfo (newClient o) held w text
            = Some (out, held)
          /\ count is_sem_send (trace out) = 0%nat
          /\ count is_sem_recv (trace out) = 0%nat).
Proof.
  split.
  - intros c held w text out h Hgen.
    destruct (dispatch_leaves_gate_and_clock c (proc w) text)
      as (Hs & Hr & _).
    destruct (generate_cases formatFloat ReadInfo c w text held out h Hgen)
      as [(Hb & -> & ->) | [(Hb & Hsem & -> & ->) |
         [(Hb & cap & Hsem & Hpark & ->) |
          (Hb & cap & Hsem & Hpark & Hres & Htr)]]].
    + repeat split; auto. intros cap sc h0 _ Hnb _.
      exfalso. apply Hnb. now apply TrimSpace_empty_iff.
    + rewrite Hs, Hr. repeat split; auto. intros; congruence.
    + destruct (park_occupancy _ _ _ _ _ _ _ Hpark) as (Hle & Hsame & _).
      repeat split; auto. intros cap' sc h0 Hsem' _ Hpark'.
      congruence.
    + destruct (park_occupancy _ _ _ _ _ _ _ Hpark) as (Hle & Hsame & _).
      rewrite Htr.
      change (SemSend :: trace (dispatch formatFloat ReadInfo c (proc w) text)
              ++ [SemRecv])
        with ([SemSend] ++ trace (dispatch formatFloat ReadInfo c (proc w) text)
              ++ [SemRecv]).
      rewrite !count_app, Hs, Hr.
      repeat split; auto. intros cap' sc h0 Hsem' _ Hpark'.
      congruence.
  - intros o held w text Hcap.
    assert (Hnil : sem (newClient o) = None).
    { unfold newClient. cbn [sem].
      destruct (Z.ltb_spec 0 (Concurrency o)); [lia|reflexivity]. }
    split; [assumption|].
    unfold generate. rewrite Hnil.
    destruct (TrimSpace text =? "")%string.
    + eexists. split; [reflexivity|]. split; reflexivity.
    + eexists. split; [reflexivity|].
      destruct (dispatch_leaves_gate_and_clock (newClient o) (proc w) text)
        as (Hs & Hr & _).
      split; assumption.
Qed.

(** C9. A successful result of the one-shot client carries the zero
    [GenerationStats]: its [Duration] is 0 whatever time the call took,
    and the call never reads the clock. *)
Theorem cli_result_duration_is_zero :
  forall (c : Client) (held : nat) (w : gen_env) (text : string)
         (out : M WAVResult) (h : nat) (res : WAVResult),
    generate formatFloat ReadInfo c held w text = Some (out, h) ->
    result out = inr res ->
    Duration (Stats res) = 0%Z /\ count is_clock (trace out) = 0%nat.
Proof.
  intros c held w text out h res Hgen Hres.
  destruct (dispatch_leaves_gate_and_clock c (proc w) text)
    as (_ & _ & Hc).
  assert (Hzero : forall r,
    result (dispatch formatFloat ReadInfo c (proc w) text) = inr r ->
    Duration (Stats r) = 0%Z).
  { intros r. rewrite dispatch_spec. cbn [result fst].
    match goal with
    | |- context [result ?m] => destruct (result m) as [e|rr]
    end; [intros [=]|].
    destruct (List.length (stdout rr) =? 0)%nat; [intros [=]|].
    destruct (parseWAVHeader ReadInfo (stdout rr)) as [e|[[sr ch] bps]];
      [intros [=]|].
    now intros [= <-]. }
  destruct (generate_cases formatFloat ReadInfo c w text held out h Hgen)
    as [(_ & -> & _) | [(_ & _ & -> & _) |
       [(_ & cap & _ & _ & ->) | (_ & cap & _ & _ & Hr & Htr)]]];
    try discriminate.
  - split; [now apply Hzero|assumption].
  - rewrite Hr in Hres. split; [now apply Hzero|].
    rewrite Htr.
    change (SemSend :: trace (dispatch formatFloat ReadInfo c (proc w) text)
            ++ [SemRecv])
      with ([SemSend] ++ trace (dispatch formatFloat ReadInfo c (proc w) text)
            ++ [SemRecv]).
    rewrite !count_app, Hc. reflexivity.
Qed.

End GateTheorems.

(** The warm path, by contrast, measures the time from dispatch to the
    fully read response and returns it. *)
Lemma server_result_duration_is_elapsed :
  forall ReadInfo s env text o res,
    result (Server.Generate ReadInfo s env text o) = inr res ->
    CLI.Duration (CLI.Stats res) = (Server.t_read env - Server.t_dispatch env)%Z.
Proof.
  intros ReadInfo s env text o res. unfold Server.Generate.
  destruct (TrimSpace text =? "")%string; [intros [=]|].
  destruct (Server.buildTTSRequest _ _ _) as [[e|req] tr]; [intros [=]|].
  cbn [bind]. destruct (Server.newreq_err env); cbn; [intros [=]|].
  destruct (Server.do_result env) as [e|resp]; cbn; [intros [=]|].
  unfold defer.
  destruct (Server.StatusCode resp =? 200)%Z; cbn; [|intros [=]].
  destruct (Server.body_err resp); cbn; [intros [=]|].
  destruct (parseWAVHeader ReadInfo (Server.Body resp))
    as [e|[[sr ch] bps]]; cbn; [intros [=]|].
  destruct (Server.SLogWriter (Server.sopts s)); cbn; now intros [= <-].
Qed.

Lemma generate_releases_its_slot_witness :
  count is_sem_send (trace hello_out) = count is_sem_recv (trace hello_out)
  /\ CLI.sem (CLI.newClient CLI.zeroOptions) = None.
Proof.
  split.
  - apply (proj1 (generate_releases_its_slot plain_format example_decoder)
             one_slot 0%nat (calm prints_header) "Hello."%string hello_out 0%nat).
    vm_compute. reflexivity.
  - apply (proj2 (generate_releases_its_slot plain_format example_decoder)
             CLI.zeroOptions 0%nat (calm prints_header) "Hello."%string).
    vm_compute. discriminate.
Defined.

Lemma cli_result_duration_is_zero_witness :
  result hello_out = inr hello_result
  /\ CLI.Duration (CLI.Stats hello_result) = 0.
Proof.
  assert (Hres : result hello_out = inr hello_result)
    by (vm_compute; reflexivity).
  split; [exact Hres|].
  apply (cli_result_duration_is_zero plain_format example_decoder one_slot
           0%nat (calm prints_header) "Hello."%string hello_out 0%nat
           hello_result).
  - vm_compute. reflexivity.
  - exact Hres.
Defined.

(* ================================================================== *)
(** * Properties of the payload validator                               *)
(* ================================================================== *)

Lemma bytes_eqb_eq : forall a b, bytes_eqb a b = true <-> a = b.
Proof.
  intros a b. unfold bytes_eqb.
  destruct (list_eq_dec Z.eq_dec a b); split; congruence.
Qed.

(** Every error of [parseWAVHeader] is in the MalformedPayload category,
    whatever the decoder. *)
Lemma parseWAVHeader_errors :
  forall ReadInfo data e,
    parseWAVHeader ReadInfo data = inl e -> MalformedPayload e.
Proof.
  intros ReadInfo data e. unfold parseWAVHeader.
  destruct data as [|b data]; cbn [List.length Nat.eqb].
  { intros [= <-]. left. reflexivity. }
  destruct (Err (ReadInfo (b :: data))).
  { intros [= <-]. reflexivity. }
  destruct (_ || _ || _)%bool; intros [= <-]. right. reflexivity.
Qed.


Lemma le16_u8 : forall v, 0 <= v < 65536 ->
  u8 v + 256 * u8 (Z.shiftr v 8) = v.
Proof.
  intros v Hv. unfold u8. rewrite Z.shiftr_div_pow2 by lia.
  change (2 ^ 8) with 256.
  Z.to_euclidean_division_equations. lia.
Qed.

Lemma le32_u8 : forall v, 0 <= v < 4294967296 ->
  u8 v + 256 * u8 (Z.shiftr v 8) + 65536 * u8 (Z.shiftr v 16)
  + 16777216 * u8 (Z.shiftr v 24) = v.
Proof.
  intros v Hv. unfold u8. rewrite !Z.shiftr_div_pow2 by lia.
  change (2 ^ 8) with 256. change (2 ^ 16) with 65536.
  change (2 ^ 24) with 16777216.
  Z.to_euclidean_division_equations. lia.
Qed.

(** The bytes of the header, one by one. *)
Lemma makeWAVHeader_bytes :
  forall sr ch bps : Z,
    let br := u32 (u32 (sr * u32 ch) * u32 bps) / 8 in
    let ba := u16 (ch * bps) / 8 in
    makeWAVHeader sr ch bps =
      [82; 73; 70; 70;  36; 0; 0; 0;  87; 65; 86; 69;  102; 109; 116; 32;
       16; 0; 0; 0;  1; 0;  u8 ch; u8 (Z.shiftr ch 8);
       u8 sr; u8 (Z.shiftr sr 8); u8 (Z.shiftr sr 16); u8 (Z.shiftr sr 24);
       u8 br; u8 (Z.shiftr br 8); u8 (Z.shiftr br 16); u8 (Z.shiftr br 24);
       u8 ba; u8 (Z.shiftr ba 8);  u8 bps; u8 (Z.shiftr bps 8);
       100; 97; 116; 97;  0; 0; 0; 0].
Proof. intros sr ch bps. reflexivity. Qed.





(* ================================================================== *)
(** * Properties of buildArgs                                           *)
(* ================================================================== *)

(** [fmt.Sprintf("%d", n)] starts with a digit, or with a minus sign and a
    digit: it is never one of the flags. *)
Lemma formatInt_not_flag : forall n, ~ In (formatInt n) option_flags.
Proof.
  intros n. unfold formatInt, option_flags.
  destruct (Z.to_int n) as [d|d]; destruct d; cbn;
    intros H; repeat (destruct H as [H|H]; [discriminate H|]); exact H.
Qed.

(** Nine conditional appends in a row, as one concatenation. *)
Lemma conditional_appends :
  forall (b1 b2 b3 b4 b5 b6 b7 b8 b9 : bool)
         (base l1 l2 l3 l4 l5 l6 l7 l8 l9 : list string),
    (let args := base in
     let args := if b1 then args ++ l1 else args in
     let args := if b2 then args ++ l2 else args in
     let args := if b3 then args ++ l3 else args in
     let args := if b4 then args ++ l4 else args in
     let args := if b5 then args ++ l5 else args in
     let args := if b6 then args ++ l6 else args in
     let args := if b7 then args ++ l7 else args in
     let args := if b8 then args ++ l8 else args in
     let args := if b9 then args ++ l9 else args in
     args) =
    base ++ (if b1 then l1 else []) ++ (if b2 then l2 else [])
    ++ (if b3 then l3 else []) ++ (if b4 then l4 else [])
    ++ (if b5 then l5 else []) ++ (if b6 then l6 else [])
    ++ (if b7 then l7 else []) ++ (if b8 then l8 else [])
    ++ (if b9 then l9 else []) ++ [].
Proof.
  intros. cbv zeta.
  destruct b1, b2, b3, b4, b5, b6, b7, b8, b9; cbn [app];
    rewrite ?app_nil_r, <- ?app_assoc; reflexivity.
Qed.

Lemma in_segment :
  forall x flag set values,
    In x (segment (flag, set, values)) <->
    set = true /\ (x = flag \/ In x values).
Proof.
  intros x flag set values. destruct set; cbn.
  - intuition congruence.
  - intuition discriminate.
Qed.

Section ArgsTheorems.

Import CLI.
Local Open Scope string_scope.

Variable formatFloat : float -> string.
Variable ReadInfo : list Z -> Decoder.

(** [buildArgs] appends the rows of the table that are set, in order. *)
Lemma buildArgs_table :
  forall c,
    buildArgs formatFloat c
      = (base_args ++ flat_map segment (settings formatFloat (opts c)))%list.
Proof.
  intros c. unfold buildArgs, settings, base_args.
  cbn [flat_map segment]. apply conditional_appends.
Qed.

Lemma all_zero_args :
  forall c, all_zero (opts c) -> buildArgs formatFloat c = base_args.
Proof.
  intros c (Hv & Hc & Ht & Hl & Hn & He & Hf & Hm & Hq).
  unfold buildArgs. rewrite Hv, Hc, Ht, Hl, Hn, He, Hf, Hm, Hq.
  reflexivity.
Qed.

Lemma all_set_args :
  forall c, all_set (opts c) ->
    buildArgs formatFloat c =
      (base_args ++
       ["--voice"; Voice (opts c); "--config"; Config (opts c);
        "--temperature"; formatFloat (Temperature (opts c));
        "--lsd-decode-steps"; formatInt (LSDDecodeSteps (opts c));
        "--noise-clamp"; formatFloat (NoiseClamp (opts c));
        "--eos-threshold"; formatFloat (EOSThreshold (opts c));
        "--frames-after-eos"; formatInt (FramesAfterEOS (opts c));
        "--max-tokens"; formatInt (MaxTokens (opts c));
        "--quiet"])%list.
Proof.
  intros c (Hv & Hc & Ht & Hl & Hn & He & Hf & Hm & Hq).
  unfold buildArgs.
  apply String.eqb_neq in Hv, Hc. apply Z.eqb_neq in Hl, Hf, Hm.
  rewrite Hv, Hc, Ht, Hl, Hn, He, Hf, Hm, Hq. reflexivity.
Qed.

End ArgsTheorems.

Section ArgsMain.

Import CLI.
Local Open Scope string_scope.

Variable formatFloat : float -> string.
Variable ReadInfo : list Z -> Decoder.

(** Membership in the argument list, row by row. *)
Lemma in_buildArgs :
  forall c x,
    let o := opts c in
    In x (buildArgs formatFloat c) <->
    In x base_args
    \/ (Voice o <> "" /\ (x = "--voice" \/ Voice o = x))
    \/ (Config o <> "" /\ (x = "--config" \/ Config o = x))
    \/ (fnonzero (Temperature o) = true
        /\ (x = "--temperature" \/ formatFloat (Temperature o) = x))
    \/ (LSDDecodeSteps o <> 0%Z
        /\ (x = "--lsd-decode-steps" \/ formatInt (LSDDecodeSteps o) = x))
    \/ (fnonzero (NoiseClamp o) = true
        /\ (x = "--noise-clamp" \/ formatFloat (NoiseClamp o) = x))
    \/ (fnonzero (EOSThreshold o) = true
        /\ (x = "--eos-threshold" \/ formatFloat (EOSThreshold o) = x))
    \/ (FramesAfterEOS o <> 0%Z
        /\ (x = "--frames-after-eos" \/ formatInt (FramesAfterEOS o) = x))
    \/ (MaxTokens o <> 0%Z
        /\ (x = "--max-tokens" \/ formatInt (MaxTokens o) = x))
    \/ (Quiet o = true /\ x = "--quiet").
Proof.
  intros c x o. rewrite buildArgs_table. unfold settings. fold o.
  cbn [flat_map]. rewrite !in_app_iff, !in_segment.
  rewrite !negb_true_iff, !String.eqb_neq, !Z.eqb_neq. cbn [In].
  tauto.
Qed.

(** A value that equals a flag contradicts the assumption that values
    are not flags. *)
Ltac value_is_flag H :=
  exfalso;
  match type of H with
  | ?v = ?f =>
      let Hin := fresh in
      assert (Hin : In f option_flags) by (cbn; tauto);
      rewrite <- H in Hin; revert Hin;
      first [assumption | apply formatInt_not_flag
            | match goal with Hf : forall x, ~ In _ option_flags |- _ =>
                apply Hf end]
  end.

Ltac open_rows :=
  repeat match goal with
  | H : _ \/ _ |- _ => destruct H as [H|H]
  | H : _ /\ _ |- _ => destruct H
  | H : False |- _ => destruct H
  end;
  try match goal with
  | H : ?a = ?b |- _ => discriminate H
  end.

Ltac flag_iff :=
  rewrite in_buildArgs; unfold base_args; cbn [In]; split;
  [ let H := fresh in
    intros H; open_rows;
    first [assumption
          | match goal with H' : _ = _ |- _ => value_is_flag H' end]
  | let H := fresh in
    intros H;
    solve [repeat first [ left; split; [exact H | left; reflexivity]
                        | right
                        | split; [exact H | reflexivity] ]] ].

Ltac not_in_list :=
  let H := fresh in
  cbn [In app]; intros H; open_rows;
  match goal with H' : _ = _ |- _ => value_is_flag H' end.

Ltac once_at n :=
  match goal with
  | |- once _ _ ?l =>
      exists (firstn n l), (skipn (S (S n)) l);
      cbn [firstn skipn app];
      split; [reflexivity | split; not_in_list]
  end.

(** C8, as the code has it. When every option is at its zero value the
    argument list holds none of the flags. When the values passed
    through (the voice, the configuration path and the formatted floats)
    are not themselves flags: each flag is in the list if and only if
    its option differs from its zero value; and when every option
    differs from it, each flag with a value occurs exactly once,
    immediately followed by its formatted value, and [--quiet] is
    present. *)
Theorem buildArgs_flags_follow_the_options :
  (forall c : Client,
      all_zero (opts c) ->
      forall flag, In flag option_flags ->
        ~ In flag (buildArgs formatFloat c))
  /\ (forall c : Client,
      let o := opts c in
      let args := buildArgs formatFloat c in
      ~ In (Voice o) option_flags ->
      ~ In (Config o) option_flags ->
      (forall x, ~ In (formatFloat x) option_flags) ->
      ((In "--voice" args <-> Voice o <> "")
       /\ (In "--config" args <-> Config o <> "")
       /\ (In "--temperature" args <-> fnonzero (Temperature o) = true)
       /\ (In "--lsd-decode-steps" args <-> LSDDecodeSteps o <> 0%Z)
       /\ (In "--noise-clamp" args <-> fnonzero (NoiseClamp o) = true)
       /\ (In "--eos-threshold" args <-> fnonzero (EOSThreshold o) = true)
       /\ (In "--frames-after-eos" args <-> FramesAfterEOS o <> 0%Z)
       /\ (In "--max-tokens" args <-> MaxTokens o <> 0%Z)
       /\ (In "--quiet" args <-> Quiet o = true))
      /\ (all_set o ->
          once "--voice" (Voice o) args
          /\ once "--config" (Config o) args
          /\ once "--temperature" (formatFloat (Temperature o)) args
          /\ once "--lsd-decode-steps" (formatInt (LSDDecodeSteps o)) args
          /\ once "--noise-clamp" (formatFloat (NoiseClamp o)) args
          /\ once "--eos-threshold" (formatFloat (EOSThreshold o)) args
          /\ once "--frames-after-eos" (formatInt (FramesAfterEOS o)) args
          /\ once "--max-tokens" (formatInt (MaxTokens o)) args
          /\ In "--quiet" args)).
Proof.
  split.
  - intros c Hzero flag Hflag. rewrite (all_zero_args _ c Hzero).
    unfold option_flags in Hflag. cbn [In] in Hflag.
    unfold base_args. cbn [In]. intros H. open_rows; subst; discriminate.
  - intros c o args Hv Hc Hf. unfold args. split.
    + fold o. do 8 (split; [flag_iff|]). flag_iff.
    + intros Hset. rewrite (all_set_args _ c Hset). fold o.
      unfold base_args. cbn [app].
      repeat match goal with |- _ /\ _ => split end;
        [once_at 5%nat | once_at 7%nat | once_at 9%nat | once_at 11%nat
        | once_at 13%nat | once_at 15%nat | once_at 17%nat | once_at 19%nat
        | cbn [In]; tauto].
Qed.

End ArgsMain.

Lemma buildArgs_flags_follow_the_options_witness :
  once "--voice" "mimi" (CLI.buildArgs plain_format every_option)
  /\ once "--max-tokens" "512" (CLI.buildArgs plain_format every_option)
  /\ (In "--quiet"%string (CLI.buildArgs plain_format every_option)
      <-> CLI.Quiet (CLI.opts every_option) = true).
Proof.
  assert (Hnot : forall v : string,
            (if in_dec string_dec v option_flags then true else false) = false ->
            ~ In v option_flags).
  { intros v Hv Hin. destruct (in_dec string_dec v option_flags);
      [discriminate|contradiction]. }
  destruct (proj2 (buildArgs_flags_follow_the_options plain_format)
              every_option
              (Hnot "mimi"%string eq_refl)
              (Hnot "/tmp/cfg.json"%string eq_refl)
              (fun x => Hnot (plain_format x) eq_refl)) as [Hiff Honce].
  assert (Hset : all_set (CLI.opts every_option)).
  { unfold all_set. cbn. repeat split; discriminate. }
  destruct (Honce Hset) as (Hvoice & _ & _ & _ & _ & _ & _ & Hmax & _).
  split; [exact Hvoice|]. split; [exact Hmax|].
  apply Hiff.
Defined.

(** The flag [--quiet] is in the argument list of a client whose [Quiet]
    option is false: it came in as the value of [--voice]. *)
Lemma quiet_flag_without_quiet_option :
  ~ (In "--quiet"%string (CLI.buildArgs plain_format voice_named_quiet)
     <-> CLI.Quiet (CLI.opts voice_named_quiet) = true).
Proof.
  intros [Hin _].
  assert (H : CLI.Quiet (CLI.opts voice_named_quiet) = true).
  { apply Hin. cbn. tauto. }
  discriminate H.
Qed.

(* ================================================================== *)
(** * Properties of the warm-path request                               *)
(* ================================================================== *)

(** C10, as the code has it. When both the remote voice reference and the
    local voice-file path are non-empty, building the request succeeds: no
    error is raised, the body holds the text field and the voice_url field
    and no file part, the local file is never opened; and [Generate] goes
    on to send the request whenever the request object can be built. *)
Theorem remote_voice_takes_precedence_silently :
  forall (s : Server.ServerClient) (env : Server.http_env) (text : string)
         (o : Server.ServerGenerateOptions),
    Server.VoiceURL o <> ""%string ->
    Server.VoiceWAVPath o <> ""%string ->
    Server.buildTTSRequest env text o =
      (inr ([Server.FormField "text" text;
             Server.FormField "voice_url" (Server.VoiceURL o)],
            Server.FormDataContentType (Server.boundary env)), [])
    /\ (forall ReadInfo : list Z -> Decoder,
        ~ blank text -> Server.newreq_err env = None ->
        performed is_http (Server.Generate ReadInfo s env text (Some o))
        /\ count is_open
             (trace (Server.Generate ReadInfo s env text (Some o))) = 0%nat).
Proof.
  intros s env text o Hurl Hpath.
  assert (Hbuild : Server.buildTTSRequest env text o =
      (inr ([Server.FormField "text" text;
             Server.FormField "voice_url" (Server.VoiceURL o)],
            Server.FormDataContentType (Server.boundary env)), [])).
  { unfold Server.buildTTSRequest. cbn.
    apply String.eqb_neq in Hurl. rewrite Hurl. reflexivity. }
  split; [exact Hbuild|].
  intros ReadInfo Hnb Hreq. unfold Server.Generate, performed.
  rewrite <- TrimSpace_empty_iff in Hnb. apply String.eqb_neq in Hnb. rewrite Hnb, Hbuild, Hreq. cbn.
  destruct (Server.do_result env) as [e|resp]; cbn; [split; reflexivity|].
  unfold defer.
  destruct (negb (Server.StatusCode resp =? 200)); cbn;
    [split; reflexivity|].
  destruct (Server.body_err resp); cbn; [split; reflexivity|].
  destruct (parseWAVHeader ReadInfo (Server.Body resp))
    as [e|[[sr ch] bps]]; cbn; [split; reflexivity|].
  destruct (Server.SLogWriter (Server.sopts s)); cbn; split; reflexivity.
Qed.

Lemma remote_voice_takes_precedence_silently_witness :
  Server.buildTTSRequest (serves 200 (makeWAVHeader 24000 1 16))
      "Custom voice." both_voices =
    (inr ([Server.FormField "text" "Custom voice.";
           Server.FormField "voice_url" "https://example.com/speaker.wav"],
          "multipart/form-data; boundary=b0"%string), []).
Proof.
  apply (proj1 (remote_voice_takes_precedence_silently any_server
                  (serves 200 (makeWAVHeader 24000 1 16))
                  "Custom voice."%string both_voices
                  ltac:(discriminate) ltac:(discriminate))).
Defined.

(** With both voices given, the call is not stopped by a configuration
    error before any network I/O: it sends the request and, here, returns
    the audio. *)
Lemma both_voices_no_configuration_error :
  ~ (exists e,
       result (Server.Generate example_decoder any_server
                 (serves 200 (makeWAVHeader 24000 1 16))
                 "Custom voice." (Some both_voices)) = inl e
       /\ count is_http
            (trace (Server.Generate example_decoder any_server
                      (serves 200 (makeWAVHeader 24000 1 16))
                      "Custom voice." (Some both_voices))) = 0%nat).
Proof.
  intros (e & _ & Hcount). vm_compute in Hcount. discriminate Hcount.
Qed.

(* ================================================================== *)
(** * Further properties of the runner                                  *)
(* ================================================================== *)

Section TruncateFacts.

Local Open Scope string_scope.

Lemma substring_whole : forall s, substring 0 (String.length s) s = s.
Proof. induction s as [|c s IH]; cbn; [reflexivity|now rewrite IH]. Qed.

(** Dropping the first [k] bytes: what is left is the end of the string. *)
Lemma substring_tail :
  forall k s, (k <= String.length s)%nat ->
    exists dropped,
      s = dropped ++ substring k (String.length s - k) s
      /\ String.length dropped = k.
Proof.
  induction k as [|k IH]; intros s Hk.
  - exists "". rewrite Nat.sub_0_r, substring_whole. split; reflexivity.
  - destruct s as [|c s]; [cbn in Hk; lia|].
    cbn in Hk. destruct (IH s) as (d & Hs & Hd); [lia|].
    exists (String c d). cbn. rewrite <- Hs, Hd. split; reflexivity.
Qed.

Lemma length_substring :
  forall k m s, (k + m <= String.length s)%nat ->
    String.length (substring k m s) = m.
Proof.
  induction k as [|k IH]; intros m s H.
  - revert s H. induction m as [|m IHm]; intros s H.
    + destruct s; reflexivity.
    + destruct s as [|c s]; [cbn in H; lia|]. cbn in *.
      rewrite IHm; [reflexivity|lia].
  - destruct s as [|c s]; [cbn in H; lia|]. cbn in *. apply IH. lia.
Qed.

Lemma length_truncate :
  forall s n,
    (String.length (truncate s n) <= n + String.length ellipsis)%nat.
Proof.
  intros s n. change (String.length ellipsis) with 7%nat. unfold truncate.
  destruct (Nat.leb_spec (String.length s) n) as [Hle|Hlt]; [lia|].
  rewrite length_append, length_substring by lia. cbn. lia.
Qed.

(** X1. [truncate] returns a string of at most [n] bytes unchanged; of a
    longer one it keeps exactly the last [n] bytes and puts the
    marker in front (seven bytes, as the file stands), so the result is
    never longer than [n] bytes plus the marker. *)
Theorem truncate_keeps_the_end :
  forall (s : string) (n : nat),
    ((String.length s <= n)%nat -> truncate s n = s)
    /\ ((n < String.length s)%nat ->
        exists dropped kept,
          s = dropped ++ kept /\ String.length kept = n
          /\ truncate s n = ellipsis ++ kept)
    /\ (String.length (truncate s n) <= n + String.length ellipsis)%nat.
Proof.
  intros s n. pose proof (length_truncate s n) as Hlen. unfold truncate in *.
  destruct (Nat.leb_spec (String.length s) n) as [Hle|Hlt].
  - split; [reflexivity|]. split; [lia|lia].
  - split; [lia|].
    destruct (substring_tail (String.length s - n) s) as (d & Hs & Hd); [lia|].
    replace (String.length s - (String.length s - n))%nat with n in Hs by lia.
    assert (Hk : String.length (substring (String.length s - n) n s) = n)
      by (apply length_substring; lia).
    split.
    + intros _. exists d, (substring (String.length s - n) n s). auto.
    + exact Hlen.
Qed.

End TruncateFacts.

Lemma truncate_keeps_the_end_witness :
  truncate "abcdef" 4 = (ellipsis ++ "cdef")%string
  /\ truncate "abc" 4 = "abc"%string.
Proof.
  destruct (truncate_keeps_the_end "abc" 4) as (Hshort & _ & _).
  split; [reflexivity|]. apply Hshort. cbn. lia.
Defined.

Section RunnerMore.

Variables (r : runner) (w : proc_env) (args : list string) (payload : list Z).

(** X2. A failed stdin write: the process is killed and never waited
    for, and the error returned wraps the cause of the write failure,
    whatever the process did and whatever the context says. *)
Theorem write_failure_kills_without_waiting :
  forall cause,
    pipe_err w = None -> start_err w = None -> write_err w = Some cause ->
    result (run r w args payload)
      = inl (ErrorfW "pockettts: write stdin" cause)
    /\ count is_kill (trace (run r w args payload)) = 1%nat
    /\ count is_wait (trace (run r w args payload)) = 0%nat.
Proof.
  intros cause Hp Hs Hw.
  destruct (run_cases r w args payload) as [(e & Hp' & _) |
    [(e & _ & Hs' & _) | [(e & _ & _ & Hw' & Hrun) | (_ & _ & Hw' & _)]]];
    try congruence.
  rewrite Hrun. assert (e = cause) by congruence. subst e.
  repeat split.
Qed.

(** X3. The life of the subprocess: a call creates at most one process;
    a process that was created is either waited for or killed, never
    both; and when none was created nothing is written, killed or waited
    for. *)
Theorem one_process_waited_or_killed :
  let tr := trace (run r w args payload) in
  (count is_created tr <= 1)%nat
  /\ (count is_created tr = 1%nat ->
      (count is_wait tr + count is_kill tr = 1)%nat
      /\ count is_go_writer tr = 1%nat)
  /\ (count is_created tr = 0%nat ->
      count is_wait tr = 0%nat /\ count is_kill tr = 0%nat
      /\ count is_go_writer tr = 0%nat).
Proof.
  destruct (run_cases r w args payload) as [(e & _ & ->) |
    [(e & _ & _ & ->) | [(e & _ & _ & _ & ->) | (_ & _ & _ & ->)]]];
    cbn; repeat split; auto; discriminate.
Qed.

(** When [run] succeeds, and with what. *)
Lemma run_ok_iff :
  forall res,
    result (run r w args payload) = inr res <->
    pipe_err w = None /\ start_err w = None /\ write_err w = None
    /\ wait_err w = None
    /\ res = {| stdout := out_bytes w; stderr := truncate (err_text w) 512 |}.
Proof.
  intros res.
  destruct (run_cases r w args payload) as [(e & Hp & ->) |
    [(e & Hp & Hs & ->) | [(e & Hp & Hs & Hw & ->) | (Hp & Hs & Hw & ->)]]];
    cbn [result fst].
  - split; [discriminate|]. intros (H & _). congruence.
  - split; [discriminate|]. intros (_ & H & _). congruence.
  - split; [discriminate|]. intros (_ & _ & H & _). congruence.
  - destruct (wait_err w) as [e|] eqn:Hwait.
    + split.
      * destruct (ctx_err w); discriminate.
      * intros (_ & _ & _ & H & _). discriminate.
    + split.
      * intros [= <-]. auto.
      * intros (_ & _ & _ & _ & ->). reflexivity.
Qed.

(** X4. [run] succeeds exactly when the pipe, the start, the write and the
    wait all succeed; its result is then the standard output of the
    process, byte for byte, and the excerpt of its standard error. The
    exit code read back and the state of the context play no part when
    the wait reports no error, and a process that prints nothing is a
    success of [run]. Conversely [run] fails as soon as one of the four
    operations fails. *)
Theorem run_succeeds_iff_nothing_fails :
  (forall res,
     result (run r w args payload) = inr res <->
     pipe_err w = None /\ start_err w = None /\ write_err w = None
     /\ wait_err w = None
     /\ res = {| stdout := out_bytes w;
                 stderr := truncate (err_text w) 512 |})
  /\ ((exists e, result (run r w args payload) = inl e) <->
      pipe_err w <> None \/ start_err w <> None \/ write_err w <> None
      \/ wait_err w <> None).
Proof.
  split; [exact run_ok_iff|].
  destruct (result (run r w args payload)) as [e|res] eqn:Hrun.
  - split; [intros _|eauto].
    destruct (pipe_err w) eqn:Hp; [left; discriminate|].
    destruct (start_err w) eqn:Hs; [right; left; discriminate|].
    destruct (write_err w) eqn:Hw; [right; right; left; discriminate|].
    destruct (wait_err w) eqn:Hx; [right; right; right; discriminate|].
    exfalso.
    assert (H : inl e = inr {| stdout := out_bytes w;
                               stderr := truncate (err_text w) 512 |}).
    { rewrite <- Hrun. apply run_ok_iff. rewrite Hp, Hs, Hw, Hx. auto. }
    discriminate H.
  - apply run_ok_iff in Hrun. destruct Hrun as (Hp & Hs & Hw & Hx & _).
    split; [intros (e & He); discriminate He|].
    intros [H | [H | [H | H]]]; congruence.
Qed.

(** X5. Whatever the process prints on standard error, the excerpt that
    [run] hands back (in its result or inside [ErrProcessTimeout] and
    [ErrNonZeroExit]) is at most 512 bytes long plus the marker of
    [truncate]. *)
Theorem stderr_excerpt_is_bounded :
  (forall res, result (run r w args payload) = inr res ->
      (String.length (stderr res) <= 512 + String.length ellipsis)%nat)
  /\ (forall e s, result (run r w args payload) = inl e ->
      excerpt_of e = Some s ->
      (String.length s <= 512 + String.length ellipsis)%nat).
Proof.
  pose proof (length_truncate (err_text w) 512) as Hlen.
  destruct (run_cases r w args payload) as [(e & Hp & ->) |
    [(e & Hp & Hs & ->) | [(e & Hp & Hs & Hw & ->) | (Hp & Hs & Hw & ->)]]];
    cbn [result fst]; split; try discriminate.
  - intros e' s [= <-]. discriminate.
  - intros e' s [= <-]. destruct (isNotFound e); discriminate.
  - intros e' s [= <-]. discriminate.
  - destruct (wait_err w); [destruct (ctx_err w)|]; try discriminate.
    intros res [= <-]. exact Hlen.
  - destruct (wait_err w); [destruct (ctx_err w)|]; try discriminate;
      intros e' s [= <-] [= <-]; exact Hlen.
Qed.

(** X6. A start failure that is not a not-found error is returned wrapped,
    with its cause still on the unwrap chain, and no process exists. *)
Theorem other_start_failures_keep_their_cause :
  forall cause,
    pipe_err w = None -> start_err w = Some cause ->
    isNotFound cause = false ->
    result (run r w args payload)
      = inl (ErrorfW "pockettts: start process" cause)
    /\ (forall e, result (run r w args payload) = inl e -> In cause (chain e))
    /\ count is_created (trace (run r w args payload)) = 0%nat.
Proof.
  intros cause Hp Hs Hnf.
  destruct (run_cases r w args payload) as [(e & Hp' & _) |
    [(e & _ & Hs' & Hrun) | [(e & _ & Hs' & _) | (_ & Hs' & _)]]];
    try congruence.
  assert (e = cause) by congruence. subst e. rewrite Hrun, Hnf.
  cbn [result trace fst snd]. repeat split.
  intros e [= <-]. cbn. right. destruct cause; cbn; auto.
Qed.

End RunnerMore.

(* ================================================================== *)
(** * Properties of isNotFound                                          *)
(* ================================================================== *)

Lemma isExecErrNotFound_on_chain :
  forall e, isExecErrNotFound e = true -> In ExecErrNotFound (chain e).
Proof.
  induction e; cbn; intros H; try discriminate; auto.
Qed.

Lemma isErrno_on_chain :
  forall t e, isErrno t e = true -> In (Errno t) (chain e).
Proof.
  induction e; cbn; intros H; try discriminate; auto.
  left. destruct e, t; cbn in H; try discriminate; reflexivity.
Qed.

Lemma asExecError_on_chain :
  forall e n inner, asExecError e = Some (n, inner) ->
    forall x, In x (chain inner) -> In x (chain e).
Proof.
  induction e; cbn; intros n inner H x Hx; try discriminate.
  - right. eauto.
  - injection H as <- <-. now right.
  - right. eauto.
Qed.

Lemma asPathError_on_chain :
  forall e op p inner, asPathError e = Some (op, p, inner) ->
    forall x, In x (chain inner) -> In x (chain e).
Proof.
  induction e; cbn; intros op p inner H x Hx; try discriminate.
  - right. eauto.
  - right. eauto.
  - injection H as <- <- <-. now right.
Qed.

(** X7. [isNotFound] answers true only for an error whose unwrap chain
    holds [exec.ErrNotFound] or [ENOENT]; wrapping an error with
    [fmt.Errorf] does not change the answer; and the converse fails,
    since an [*exec.Error] on the chain is decided by its cause alone: one
    whose cause is a path error with [ENOENT] is not a not-found error. *)
Theorem isNotFound_reads_the_chain :
  (forall err, isNotFound err = true ->
      In ExecErrNotFound (chain err) \/ In (Errno ENOENT) (chain err))
  /\ (forall msg err, isNotFound (ErrorfW msg err) = isNotFound err)
  /\ (forall name op path,
      let err := ExecError name (PathError op path (Errno ENOENT)) in
      In (Errno ENOENT) (chain err) /\ isNotFound err = false).
Proof.
  split; [|split].
  - intros err. unfold isNotFound.
    destruct (asExecError err) as [[n inner]|] eqn:Hexec.
    + intros H. left. eapply asExecError_on_chain; eauto.
      now apply isExecErrNotFound_on_chain.
    + destruct (asPathError err) as [[[op p] inner]|] eqn:Hpath;
        [|discriminate].
      intros H. right. eapply asPathError_on_chain; eauto.
      now apply isErrno_on_chain.
  - reflexivity.
  - intros name op path. cbn. split; [tauto|reflexivity].
Qed.

Lemma isNotFound_reads_the_chain_witness :
  In ExecErrNotFound
     (chain (ErrorfW "start" (ExecError "pocket-tts" ExecErrNotFound)))
  \/ In (Errno ENOENT)
        (chain (ErrorfW "start" (ExecError "pocket-tts" ExecErrNotFound))).
Proof.
  apply (proj1 isNotFound_reads_the_chain). reflexivity.
Defined.

(* ================================================================== *)
(** * Further properties of the one-shot client                         *)
(* ================================================================== *)

Section ClientMore.

Import CLI.

Variable formatFloat : float -> string.
Variable ReadInfo : list Z -> Decoder.

(** A returning call either stops before it does anything (blank text,
    or a context done at the select), or performs exactly one run, inside
    a send to and a receive from the semaphore when there is one. *)
Lemma generate_outcome :
  forall c held w text out h,
    generate formatFloat ReadInfo c held w text = Some (out, h) ->
    (blank text /\ out = (inl ErrEmptyText, []))
    \/ (~ blank text /\ sem c <> None /\
        out = (inl (ErrProcessTimeout
                      "context cancelled while waiting for concurrency slot"),
               []))
    \/ (~ blank text /\ sem c = None /\
        result out = verdict ReadInfo (run_of formatFloat c w text) /\
        trace out = trace (run_of formatFloat c w text))
    \/ (~ blank text /\
        (exists cap, sem c = Some cap /\ (h < cap)%nat) /\
        result out = verdict ReadInfo (run_of formatFloat c w text) /\
        trace out = SemSend :: trace (run_of formatFloat c w text) ++ [SemRecv]).
Proof.
  intros c held w text out h Hgen.
  pose proof (dispatch_spec formatFloat ReadInfo c w text) as Hd.
  destruct (generate_cases formatFloat ReadInfo c w text held out h Hgen)
    as [(Hb & -> & _) | [(Hb & Hsem & -> & _) |
       [(Hb & cap & Hsem & Hpark & ->) | (Hb & cap & Hsem & Hpark & Hr & Ht)]]].
  - left. split; [now apply TrimSpace_empty_iff|reflexivity].
  - right; right; left. rewrite <- TrimSpace_empty_iff.
    rewrite Hd. auto.
  - right; left. rewrite <- TrimSpace_empty_iff.
    repeat split; auto. congruence.
  - right; right; right. rewrite <- TrimSpace_empty_iff.
    split; [assumption|]. split.
    + exists cap. split; [assumption|].
      now apply (park_occupancy _ _ _ _ _ _ _ Hpark).
    + rewrite Hr, Ht, Hd. auto.
Qed.

End ClientMore.

(** A header that [parseWAVHeader] accepts has no zero field. *)
Lemma parseWAVHeader_fields_nonzero :
  forall ReadInfo data sr ch bps,
    parseWAVHeader ReadInfo data = inr (sr, ch, bps) ->
    sr <> 0 /\ ch <> 0 /\ bps <> 0.
Proof.
  intros ReadInfo data sr ch bps. unfold parseWAVHeader.
  destruct (List.length data =? 0)%nat; [discriminate|].
  destruct (Err (ReadInfo data)); [discriminate|].
  destruct (Z.eqb_spec (WAV.SampleRate (ReadInfo data)) 0); [discriminate|].
  destruct (Z.eqb_spec (NumChans (ReadInfo data)) 0); [discriminate|].
  destruct (Z.eqb_spec (BitDepth (ReadInfo data)) 0); [discriminate|].
  cbn. intros [= <- <- <-]. auto.
Qed.

(** The events of a run, counted. *)
Lemma run_event_counts :
  forall r w args payload,
    let tr := trace (run r w args payload) in
    (count is_start_attempt tr <= 1)%nat
    /\ count is_sem_send tr = 0%nat /\ count is_sem_recv tr = 0%nat
    /\ (forall res, result (run r w args payload) = inr res ->
        count is_created tr = 1%nat /\ count is_wait tr = 1%nat
        /\ count is_kill tr = 0%nat).
Proof.
  intros r w args payload.
  destruct (run_cases r w args payload) as [(e & _ & ->) |
    [(e & _ & _ & ->) | [(e & _ & _ & _ & ->) | (_ & _ & _ & ->)]]];
    cbn; repeat split; auto; discriminate.
Qed.

(** The rows of a table give at most a flag and its values each. *)
Lemma length_rows :
  forall rows : list (string * bool * list string),
    (List.length (flat_map segment rows)
     <= list_sum (map (fun row => S (List.length (snd row))) rows))%nat.
Proof.
  induction rows as [|[[flag set] values] rows IH]; [reflexivity|].
  cbn [flat_map map list_sum fold_right snd]. rewrite length_app.
  unfold list_sum in *. destruct set; cbn [segment List.length]; lia.
Qed.

Section ClientExtras.

Import CLI.

Variable formatFloat : float -> string.
Variable ReadInfo : list Z -> Decoder.

(** X8. A successful result of [generate] is the validated output of one
    subprocess: the text was not blank, exactly one process was created
    and waited for, the data are the bytes it wrote to standard output
    (not empty), and the three metadata fields are those that
    [parseWAVHeader] reads from these very bytes, none of them zero. *)
Theorem successful_result_is_validated_output :
  forall (c : Client) (held : nat) (w : gen_env) (text : string)
         (out : M WAVResult) (h : nat) (res : WAVResult),
    generate formatFloat ReadInfo c held w text = Some (out, h) ->
    result out = inr res ->
    ~ blank text
    /\ Data res = out_bytes (proc w) /\ Data res <> []
    /\ parseWAVHeader ReadInfo (Data res)
         = inr (SampleRate res, Channels res, BitsPerSample res)
    /\ SampleRate res <> 0 /\ Channels res <> 0 /\ BitsPerSample res <> 0
    /\ count is_created (trace out) = 1%nat
    /\ count is_wait (trace out) = 1%nat
    /\ count is_kill (trace out) = 0%nat.
Proof.
  intros c held w text out h res Hgen Hres.
  assert (Hv : forall r0, verdict ReadInfo (run_of formatFloat c w text) = inr r0 ->
    Data r0 = out_bytes (proc w) /\ Data r0 <> []
    /\ parseWAVHeader ReadInfo (Data r0)
         = inr (SampleRate r0, Channels r0, BitsPerSample r0)
    /\ SampleRate r0 <> 0 /\ Channels r0 <> 0 /\ BitsPerSample r0 <> 0
    /\ count is_created (trace (run_of formatFloat c w text)) = 1%nat
    /\ count is_wait (trace (run_of formatFloat c w text)) = 1%nat
    /\ count is_kill (trace (run_of formatFloat c w text)) = 0%nat).
  { intros r0. unfold verdict.
    destruct (result (run_of formatFloat c w text)) as [e|rr] eqn:Hrun;
      [discriminate|].
    pose proof (proj1 (run_ok_iff _ _ _ _ rr) Hrun)
      as (_ & _ & _ & _ & Hrr).
    destruct (run_event_counts
                {| executablePath := ExecutablePath (opts c);
                   logWriter := LogWriter (opts c) |}
                (proc w) (buildArgs formatFloat c)
                (bytes_of_string text)) as (_ & _ & _ & Hcounts).
    specialize (Hcounts rr Hrun). fold (run_of formatFloat c w text) in Hcounts.
    destruct (stdout rr) as [|b bs] eqn:Hout; cbn [List.length Nat.eqb];
      [discriminate|].
    destruct (parseWAVHeader ReadInfo (b :: bs)) as [e|[[sr ch] bps]] eqn:Hparse;
      [discriminate|].
    intros [= <-]. cbn [Data SampleRate Channels BitsPerSample].
    apply parseWAVHeader_fields_nonzero in Hparse as Hnz.
    rewrite Hrr in Hout. cbn in Hout.
    repeat split; try tauto; auto; discriminate. }
  destruct (generate_outcome formatFloat ReadInfo c held w text out h Hgen)
    as [(_ & ->) | [(_ & _ & ->) | [(Hnb & _ & Hr & Ht) |
       (Hnb & _ & Hr & Ht)]]]; try discriminate.
  - rewrite Hr in Hres. rewrite Ht. specialize (Hv res Hres). tauto.
  - rewrite Hr in Hres. rewrite Ht. specialize (Hv res Hres).
    change (SemSend :: trace (run_of formatFloat c w text) ++ [SemRecv])
      with ([SemSend] ++ trace (run_of formatFloat c w text) ++ [SemRecv]).
    rewrite !count_app. cbn. rewrite !Nat.add_0_r. tauto.
Qed.

(** X9. The errors of [generate] form a closed set, and those of the run
    pass through unchanged: a failing call returns [ErrEmptyText], the
    timeout of the wait for a slot, the very error of [run], the
    empty-output error, or one of the three rejections of
    [parseWAVHeader]; the last two only after a run that succeeded. *)
Theorem generate_errors_are_classified :
  forall (c : Client) (held : nat) (w : gen_env) (text : string)
         (out : M WAVResult) (h : nat) (e : error),
    generate formatFloat ReadInfo c held w text = Some (out, h) ->
    result out = inl e ->
    e = ErrEmptyText
    \/ e = ErrProcessTimeout
             "context cancelled while waiting for concurrency slot"
    \/ result (run_of formatFloat c w text) = inl e
    \/ (exists rr, result (run_of formatFloat c w text) = inr rr
        /\ (e = ErrNonZeroExit 0 "empty stdout — no WAV produced"
            \/ MalformedPayload e)).
Proof.
  intros c held w text out h e Hgen Hres.
  assert (Hv : verdict ReadInfo (run_of formatFloat c w text) = inl e ->
    result (run_of formatFloat c w text) = inl e
    \/ (exists rr, result (run_of formatFloat c w text) = inr rr
        /\ (e = ErrNonZeroExit 0 "empty stdout — no WAV produced"
            \/ MalformedPayload e))).
  { unfold verdict.
    destruct (result (run_of formatFloat c w text)) as [e'|rr];
      [intros [= <-]; now left|].
    intros H. right. exists rr. split; [reflexivity|].
    destruct (List.length (stdout rr) =? 0)%nat;
      [injection H as <-; now left|].
    destruct (parseWAVHeader ReadInfo (stdout rr)) as [e'|[[sr ch] bps]] eqn:Hp;
      [|discriminate].
    injection H as <-. right. exact (parseWAVHeader_errors _ _ _ Hp). }
  destruct (generate_outcome formatFloat ReadInfo c held w text out h Hgen)
    as [(_ & ->) | [(_ & _ & ->) | [(_ & _ & Hr & _) | (_ & _ & Hr & _)]]].
  - injection Hres as <-. now left.
  - injection Hres as <-. right; now left.
  - rewrite Hr in Hres. right; right. exact (Hv Hres).
  - rewrite Hr in Hres. right; right. exact (Hv Hres).
Qed.

(** X10. The slot brackets the run, and nothing is retried: a returning
    call sends to the semaphore at most once and attempts to start a
    process at most once; when it has sent, the occupancy it found was
    below the capacity, the send is its first event and the receive its
    last, with the whole run in between. *)
Theorem slot_brackets_the_run :
  forall (c : Client) (held : nat) (w : gen_env) (text : string)
         (out : M WAVResult) (h : nat),
    generate formatFloat ReadInfo c held w text = Some (out, h) ->
    (count is_sem_send (trace out) <= 1)%nat
    /\ (count is_start_attempt (trace out) <= 1)%nat
    /\ (count is_sem_send (trace out) = 1%nat ->
        (exists cap, sem c = Some cap /\ (h < cap)%nat)
        /\ trace out
             = SemSend :: trace (run_of formatFloat c w text) ++ [SemRecv]).
Proof.
  intros c held w text out h Hgen.
  destruct (run_event_counts
              {| executablePath := ExecutablePath (opts c);
                 logWriter := LogWriter (opts c) |}
              (proc w) (buildArgs formatFloat c) (bytes_of_string text))
    as (Hstart & Hsend & Hrecv & _).
  fold (run_of formatFloat c w text) in Hstart, Hsend, Hrecv.
  destruct (generate_outcome formatFloat ReadInfo c held w text out h Hgen)
    as [(_ & ->) | [(_ & _ & ->) | [(_ & _ & _ & Ht) | (_ & Hcap & _ & Ht)]]].
  - cbn. repeat split; auto; discriminate.
  - cbn. repeat split; auto; discriminate.
  - rewrite Ht, Hsend. repeat split; auto; discriminate.
  - rewrite Ht.
    change (SemSend :: trace (run_of formatFloat c w text) ++ [SemRecv])
      with ([SemSend] ++ trace (run_of formatFloat c w text) ++ [SemRecv]).
    rewrite !count_app, Hsend.
    change (count is_sem_send [SemSend]) with 1%nat.
    change (count is_sem_send [SemRecv]) with 0%nat.
    change (count is_start_attempt [SemSend]) with 0%nat.
    change (count is_start_attempt [SemRecv]) with 0%nat.
    split; [lia|]. split; [lia|]. intros _. split; [exact Hcap|reflexivity].
Qed.

(** X11. The select gives the context no priority: with a free slot and a
    context that is already done, a call with a text that is not blank
    times out without any operation when the runtime picks the context's
    case, and takes the slot and performs its run when it picks the
    send. *)
Theorem done_context_races_with_free_slot :
  forall (c : Client) (cap held : nat) (w : gen_env) (text : string),
    ~ blank text -> sem c = Some cap -> (held < cap)%nat ->
    ctx_done w = true ->
    (pick_send w = false ->
     generate formatFloat ReadInfo c held w text
       = Some ((inl (ErrProcessTimeout
                       "context cancelled while waiting for concurrency slot"),
                []), held))
    /\ (pick_send w = true ->
        exists out,
          generate formatFloat ReadInfo c held w text = Some (out, held)
          /\ trace out
               = SemSend :: trace (run_of formatFloat c w text) ++ [SemRecv]).
Proof.
  intros c cap held w text Hnb Hsem Hfree Hdone.
  rewrite <- TrimSpace_empty_iff in Hnb. apply String.eqb_neq in Hnb.
  apply Nat.ltb_lt in Hfree.
  assert (Hpark : forall evs,
    park cap held true (pick_send w) evs
      = Some (if pick_send w then SendCase else DoneCase, held)).
  { intros evs. destruct evs; cbn [park select_ready]; rewrite Hfree;
      reflexivity. }
  unfold generate. rewrite Hnb, Hsem, Hdone, Hpark. split; intros Hpick;
    rewrite Hpick.
  - reflexivity.
  - eexists. split; [reflexivity|].
    pose proof (dispatch_spec formatFloat ReadInfo c w text) as Hd.
    unfold defer, trace. cbn [snd]. unfold bind, emit.
    destruct (dispatch formatFloat ReadInfo c (proc w) text) as [rs tr] eqn:Hdisp.
    injection Hd as _ Htr. fold (run_of formatFloat c w text) in Htr.
    unfold trace in Htr. rewrite <- Htr. destruct rs; reflexivity.
Qed.

(** X12. The argument list always starts with the five fixed arguments
    that make the engine read the text from standard input and write the
    audio to standard output; it has between 5 and 22 elements; and it
    is determined by the nine generation options alone (the executable
    path, the log writer, the concurrency cap and the semaphore play no
    part). *)
Theorem buildArgs_shape :
  forall c : Client,
    (exists rest, buildArgs formatFloat c = base_args ++ rest)
    /\ (5 <= List.length (buildArgs formatFloat c) <= 22)%nat
    /\ (forall c' : Client,
        settings formatFloat (opts c') = settings formatFloat (opts c) ->
        buildArgs formatFloat c' = buildArgs formatFloat c).
Proof.
  intros c. split; [|split].
  - rewrite buildArgs_table. eauto.
  - rewrite buildArgs_table, length_app.
    pose proof (length_rows (settings formatFloat (opts c))) as Hrows.
    assert (Hsum : list_sum (map (fun row => S (List.length (snd row)))
                               (settings formatFloat (opts c))) = 17%nat)
      by reflexivity.
    rewrite Hsum in Hrows. change (List.length base_args) with 5%nat. lia.
  - intros c' H. now rewrite !buildArgs_table, H.
Qed.

End ClientExtras.

(* ================================================================== *)
(** * Properties of preflight and of the voice export                   *)
(* ================================================================== *)

Section OfflineFacts.

Import Offline.
Local Open Scope string_scope.

(** X13. [preflight] answers nil exactly when the lookup succeeds, and
    turns every lookup failure into [ErrExecutableNotFound] for the name
    that was looked up ("pocket-tts" when none is given), whatever the
    cause: also a cause, such as a permission error, for which [run]
    reports a failed start and not a missing executable. *)
Theorem preflight_reports_every_failure_as_not_found :
  forall (lookPath : string -> option error) (executablePath : string),
    let exe := if executablePath =? "" then "pocket-tts" else executablePath in
    (preflight lookPath executablePath = None <-> lookPath exe = None)
    /\ (forall cause, lookPath exe = Some cause ->
        preflight lookPath executablePath = Some (ErrExecutableNotFound exe))
    /\ (forall cause w args payload,
        lookPath exe = Some cause -> isNotFound cause = false ->
        pipe_err w = None -> start_err w = Some cause ->
        preflight lookPath executablePath = Some (ErrExecutableNotFound exe)
        /\ result (run {| executablePath := executablePath;
                          logWriter := false |} w args payload)
             = inl (ErrorfW "pockettts: start process" cause)).
Proof.
  intros lookPath executablePath exe. unfold preflight. fold exe.
  split; [|split].
  - destruct (lookPath exe); split; congruence.
  - intros cause ->. reflexivity.
  - intros cause w args payload -> Hnf Hp Hs. split; [reflexivity|].
    destruct (run_cases {| executablePath := executablePath;
                           logWriter := false |} w args payload)
      as [(e & Hp' & _) | [(e & _ & Hs' & Hrun) |
         [(e & _ & Hs' & _) | (_ & Hs' & _)]]]; try congruence.
    assert (e = cause) by congruence. subst e. now rewrite Hrun, Hnf.
Qed.

(** X14. [exportVoice] checks its two paths before anything else: an
    empty audio path, and then an empty export path, fails with its own
    message and without any operation. Only the empty string is refused:
    a path made of white space goes on to the runner. *)
Theorem exportVoice_refuses_empty_paths :
  forall (w : proc_env) (audioPath exportPath : string)
         (o : ExportVoiceOptions),
    (audioPath = "" ->
     exportVoice w audioPath exportPath o
       = (inl (Errorf "pockettts: audioPath must not be empty"), []))
    /\ (audioPath <> "" -> exportPath = "" ->
        exportVoice w audioPath exportPath o
          = (inl (Errorf "pockettts: exportPath must not be empty"), []))
    /\ (audioPath <> "" -> exportPath <> "" ->
        performed is_pipe (exportVoice w audioPath exportPath o)).
Proof.
  intros w audioPath exportPath o. unfold exportVoice. split; [|split].
  - intros ->. reflexivity.
  - intros Ha ->. apply String.eqb_neq in Ha. now rewrite Ha.
  - intros Ha He. apply String.eqb_neq in Ha, He. rewrite Ha, He.
    unfold performed, trace.
    destruct (run_cases {| executablePath := EExecutablePath o;
                           logWriter := ELogWriter o |} w
                (exportArgs audioPath exportPath o) [])
      as [(e & _ & ->) | [(e & _ & _ & ->) | [(e & _ & _ & _ & ->) |
         (_ & _ & _ & ->)]]]; cbn; try reflexivity.
    destruct (wait_err w); [destruct (ctx_err w)|]; reflexivity.
Qed.

(** X15. With two paths that are not empty, [exportVoice] is one run of
    the runner: the arguments start with [export-voice], the audio path
    and the export path (the optional [--config] pair and [--quiet] come
    after), nothing is written to standard input, the events are those of
    the run, and the error is the error of the run, unchanged. The call
    succeeds exactly when the run does: empty output is no error here. *)
Theorem exportVoice_is_one_run :
  forall (w : proc_env) (audioPath exportPath : string)
         (o : ExportVoiceOptions),
    audioPath <> "" -> exportPath <> "" ->
    let rn := run {| executablePath := EExecutablePath o;
                     logWriter := ELogWriter o |} w
                  (exportArgs audioPath exportPath o) [] in
    (exists rest,
        exportArgs audioPath exportPath o
          = (["export-voice"; audioPath; exportPath] ++ rest)%list)
    /\ trace (exportVoice w audioPath exportPath o) = trace rn
    /\ (forall e, result (exportVoice w audioPath exportPath o) = inl e
                  <-> result rn = inl e)
    /\ (result (exportVoice w audioPath exportPath o) = inr tt
        <-> wait_err w = None /\ pipe_err w = None /\ start_err w = None
            /\ write_err w = None).
Proof.
  intros w audioPath exportPath o Ha He rn.
  split.
  { unfold exportArgs.
    destruct (negb (EConfig o =? "")), (EQuiet o); cbn; eauto. }
  assert (Hshape : exportVoice w audioPath exportPath o =
            (match result rn with inl e => inl e | inr _ => inr tt end,
             trace rn)).
  { unfold exportVoice. apply String.eqb_neq in Ha, He. rewrite Ha, He.
    fold rn. unfold result, trace. destruct rn as [[e|res] tr]; cbn;
      [reflexivity|now rewrite app_nil_r]. }
  rewrite Hshape. cbn [result trace fst snd].
  split; [reflexivity|]. split.
  - intros e. destruct (result rn); split; congruence.
  - destruct (result rn) as [e|res] eqn:Hrn.
    + split; [discriminate|]. intros (Hw & Hp & Hs & Hwr).
      assert (Hok : result rn
                = inr {| stdout := out_bytes w;
                         stderr := truncate (err_text w) 512 |})
        by (apply run_ok_iff; auto).
      congruence.
    + split; [|reflexivity]. intros _.
      apply run_ok_iff in Hrn. tauto.
Qed.

End OfflineFacts.

(* ================================================================== *)
(** * Further properties of the warm-path request                       *)
(* ================================================================== *)

Section RequestFacts.

Import Server.
Local Open Scope string_scope.

(** The five ways through [buildTTSRequest]. *)
Lemma buildTTSRequest_cases :
  forall (env : http_env) (text : string) (o : ServerGenerateOptions),
    let path := VoiceWAVPath o in
    let ct := FormDataContentType (boundary env) in
    (VoiceURL o <> "" /\
     buildTTSRequest env text o =
       (inr ([FormField "text" text; FormField "voice_url" (VoiceURL o)], ct),
        []))
    \/ (VoiceURL o = "" /\ path = "" /\
        buildTTSRequest env text o = (inr ([FormField "text" text], ct), []))
    \/ (VoiceURL o = "" /\ path <> "" /\
        exists cause, fs_open env path = Some cause /\
        buildTTSRequest env text o =
          (inl (ErrorfW "pockettts: open voice file" cause), [OpenFile path]))
    \/ (VoiceURL o = "" /\ path <> "" /\ fs_open env path = None /\
        exists cause, fs_read env path = inl cause /\
        buildTTSRequest env text o =
          (inl (ErrorfW "pockettts: copy voice file" cause),
           [OpenFile path; CloseFile path]))
    \/ (VoiceURL o = "" /\ path <> "" /\ fs_open env path = None /\
        exists bytes, fs_read env path = inr bytes /\
        buildTTSRequest env text o =
          (inr ([FormField "text" text;
                 FormFile "voice_wav" (Base path) bytes], ct),
           [OpenFile path; CloseFile path])).
Proof.
  intros env text o path ct. unfold buildTTSRequest. cbn.
  destruct (String.eqb_spec (VoiceURL o) "") as [Hu|Hu]; cbn [negb].
  2:{ left. auto. }
  right. fold path.
  destruct (String.eqb_spec path "") as [Hp|Hp]; cbn [negb].
  { left. auto. }
  right. destruct (fs_open env path) as [cause|] eqn:Hopen; cbn.
  { left. repeat split; auto. exists cause. auto. }
  right. destruct (fs_read env path) as [cause|bytes] eqn:Hread; cbn.
  - left. repeat split; auto. exists cause. auto.
  - right. repeat split; auto. exists bytes. auto.
Qed.

(** X16. A local voice file is uploaded whole: when no voice URL is given
    and the file at the given path can be opened and read, the body holds
    the text field followed by one file part in the field [voice_wav],
    named by the last element of the path and holding exactly the bytes
    read; the file is opened once and closed after the copy. *)
Theorem local_voice_file_is_uploaded_whole :
  forall (env : http_env) (text : string) (o : ServerGenerateOptions)
         (bytes : list Z),
    VoiceURL o = "" -> VoiceWAVPath o <> "" ->
    fs_open env (VoiceWAVPath o) = None ->
    fs_read env (VoiceWAVPath o) = inr bytes ->
    buildTTSRequest env text o =
      (inr ([FormField "text" text;
             FormFile "voice_wav" (Base (VoiceWAVPath o)) bytes],
            FormDataContentType (boundary env)),
       [OpenFile (VoiceWAVPath o); CloseFile (VoiceWAVPath o)]).
Proof.
  intros env text o bytes Hu Hp Hopen Hread.
  destruct (buildTTSRequest_cases env text o)
    as [(H & _) | [(_ & H & _) | [(_ & _ & c & H & _) |
       [(_ & _ & _ & c & H & _) | (_ & _ & _ & b & H & ->)]]]];
    try congruence.
Qed.

(** X17. The voice file is handled with care on every path: the file is
    opened at most once, and only when there is no voice URL and the path
    is not empty; it is closed exactly when the open succeeded, also when
    the copy fails; and a close never comes before the open. *)
Theorem voice_file_is_closed_iff_opened :
  forall (env : http_env) (text : string) (o : ServerGenerateOptions),
    let tr := trace (buildTTSRequest env text o) in
    (count is_open tr <= 1)%nat
    /\ (count is_open tr = 1%nat <->
        VoiceURL o = "" /\ VoiceWAVPath o <> "")
    /\ (count is_close_file tr = 1%nat <->
        count is_open tr = 1%nat /\ fs_open env (VoiceWAVPath o) = None)
    /\ (count is_close_file tr <= count is_open tr)%nat
    /\ (count is_close_file tr = 1%nat ->
        precedes is_open is_close_file tr = true).
Proof.
  intros env text o tr. subst tr.
  destruct (buildTTSRequest_cases env text o)
    as [(Hu & ->) | [(Hu & Hp & ->) | [(Hu & Hp & c & Ho & ->) |
       [(Hu & Hp & Ho & c & Hr & ->) | (Hu & Hp & Ho & b & Hr & ->)]]]];
    cbn; repeat match goal with |- _ /\ _ => split | |- _ <-> _ => split end;
    try lia; try reflexivity; try tauto; try discriminate;
    try (intros [? ?]; congruence); auto.
Qed.

(** X18. Building the body fails only on the local voice file: an error
    of [buildTTSRequest] means that no voice URL was given, that the path
    is not empty, and that opening or reading that file failed; the error
    wraps the cause. In particular a request with a voice URL, or with no
    voice at all, always builds. *)
Theorem request_fails_only_on_the_voice_file :
  forall (env : http_env) (text : string) (o : ServerGenerateOptions)
         (e : error),
    result (buildTTSRequest env text o) = inl e ->
    VoiceURL o = "" /\ VoiceWAVPath o <> ""
    /\ exists cause,
         (fs_open env (VoiceWAVPath o) = Some cause
          /\ e = ErrorfW "pockettts: open voice file" cause)
         \/ (fs_open env (VoiceWAVPath o) = None
             /\ fs_read env (VoiceWAVPath o) = inl cause
             /\ e = ErrorfW "pockettts: copy voice file" cause).
Proof.
  intros env text o e.
  destruct (buildTTSRequest_cases env text o)
    as [(Hu & ->) | [(Hu & Hp & ->) | [(Hu & Hp & c & Ho & ->) |
       [(Hu & Hp & Ho & c & Hr & ->) | (Hu & Hp & Ho & b & Hr & ->)]]]];
    cbn; intros [=]; subst; repeat split; auto; exists c; auto.
Qed.

(** X19. The body always starts with the text field, and the text is sent
    as it was given, white space included: after it comes at most one part
    for the voice, and never both a URL field and a file part. *)
Theorem body_is_text_then_at_most_one_voice :
  forall (env : http_env) (text : string) (o : ServerGenerateOptions)
         (parts : list part) (ct : string),
    result (buildTTSRequest env text o) = inr (parts, ct) ->
    ct = FormDataContentType (boundary env)
    /\ exists voice,
         parts = FormField "text" text :: voice
         /\ (List.length voice <= 1)%nat
         /\ (voice = [] <-> VoiceURL o = "" /\ VoiceWAVPath o = "")
         /\ (In (FormField "voice_url" (VoiceURL o)) voice <->
             VoiceURL o <> "").
Proof.
  intros env text o parts ct.
  destruct (buildTTSRequest_cases env text o)
    as [(Hu & ->) | [(Hu & Hp & ->) | [(Hu & Hp & c & Ho & ->) |
       [(Hu & Hp & Ho & c & Hr & ->) | (Hu & Hp & Ho & b & Hr & ->)]]]];
    cbn; intros [=]; subst; (split; [reflexivity|]);
    eexists; (split; [reflexivity|]); cbn;
    repeat match goal with |- _ /\ _ => split | |- _ <-> _ => split end;
    try lia; try tauto; try discriminate; auto;
    try (intros [? ?]; congruence);
    try (intros [H|[]]; discriminate H).
Qed.

Variable ReadInfo : list Z -> Decoder.
Variable s : ServerClient.
Variable env : http_env.
Variable text : string.
Variable o : option ServerGenerateOptions.


(** The ways through [Generate]. *)
Lemma server_generate_cases :
  let out := Generate ReadInfo s env text o in
  let build := buildTTSRequest env text (given o) in
  let post := HTTPDo "POST" (baseURL (sopts s) ++ "/tts") in
  (blank text /\ out = (inl ErrEmptyText, []))
  \/ (~ blank text /\ exists e, result build = inl e /\
      out = (inl e, trace build))
  \/ (~ blank text /\ (exists req, result build = inr req) /\
      exists e, newreq_err env = Some e /\
      out = (inl (ErrorfW "pockettts: build TTS request" e), trace build))
  \/ (~ blank text /\ (exists req, result build = inr req) /\
      newreq_err env = None /\
      exists e, do_result env = inl e /\
      out = (inl (ErrorfW "pockettts: TTS request" e),
             (trace build ++ [ReadClock; post])%list))
  \/ (~ blank text /\ (exists req, result build = inr req) /\
      newreq_err env = None /\
      exists resp, do_result env = inr resp /\
      StatusCode resp <> 200 /\
      out = (inl (ErrNonZeroExit (StatusCode resp)
                    (string_of_list_ascii
                       (map (fun b => ascii_of_N (Z.to_N b))
                            (firstn 512 (Body resp))))),
             (trace build ++ [ReadClock; post; ReadBody; CloseBody])%list))
  \/ (~ blank text /\ (exists req, result build = inr req) /\
      newreq_err env = None /\
      exists resp, do_result env = inr resp /\
      StatusCode resp = 200 /\
      exists e, body_err resp = Some e /\
      out = (inl (ErrorfW "pockettts: read TTS response" e),
             (trace build ++ [ReadClock; post; ReadBody; ReadClock; CloseBody])%list))
  \/ (~ blank text /\ (exists req, result build = inr req) /\
      newreq_err env = None /\
      exists resp, do_result env = inr resp /\
      StatusCode resp = 200 /\ body_err resp = None /\
      exists e, parseWAVHeader ReadInfo (Body resp) = inl e /\
      out = (inl e,
             (trace build ++ [ReadClock; post; ReadBody; ReadClock; CloseBody])%list))
  \/ (~ blank text /\ (exists req, result build = inr req) /\
      newreq_err env = None /\
      exists resp, do_result env = inr resp /\
      StatusCode resp = 200 /\ body_err resp = None /\
      exists sr ch bps, parseWAVHeader ReadInfo (Body resp) = inr (sr, ch, bps) /\
      out = (inr {| CLI.Data := Body resp; CLI.SampleRate := sr;
                    CLI.Channels := ch; CLI.BitsPerSample := bps;
                    CLI.Stats :=
                      {| CLI.Duration := t_read env - t_dispatch env |} |},
             (trace build
             ++ [ReadClock; post; ReadBody; ReadClock]
             ++ (if SLogWriter (sopts s)
                 then [LogLine (List.length (Body resp))
                         (t_read env - t_dispatch env)]
                 else [])
             ++ [CloseBody])%list)).
Proof.
  intros out build post. subst out. unfold Generate. fold (given o). fold build.
  rewrite <- TrimSpace_empty_iff.
  destruct (String.eqb_spec (TrimSpace text) "") as [Hb|Hb].
  { left. auto. }
  right. destruct build as [[e|req] tr] eqn:Hbuild; cbn [bind result trace fst snd].
  { left. split; [assumption|]. exists e. auto. }
  right. destruct (newreq_err env) as [e|]; cbn - [firstn].
  { left. split; [assumption|]. split; [eauto|]. exists e.
    rewrite app_nil_r. auto. }
  right. fold post.
  destruct (do_result env) as [e|resp]; cbn - [firstn].
  { left. do 3 (split; [eauto|]). exists e. auto. }
  right. unfold defer.
  destruct (Z.eqb_spec (StatusCode resp) 200) as [Hs|Hs]; cbn - [firstn].
  2:{ left. do 3 (split; [eauto|]). exists resp.
      do 2 (split; [auto|]). reflexivity. }
  right. destruct (body_err resp) as [e|] eqn:Hbody; cbn - [firstn].
  { left. do 3 (split; [eauto|]). exists resp. do 2 (split; [auto|]).
    exists e. split; [assumption|reflexivity]. }
  right.
  destruct (parseWAVHeader ReadInfo (Body resp)) as [e|[[sr ch] bps]] eqn:Hparse; cbn - [firstn].
  { left. do 3 (split; [eauto|]). exists resp. do 3 (split; [auto|]).
    exists e. split; [assumption|reflexivity]. }
  right. do 3 (split; [eauto|]). exists resp. do 3 (split; [auto|]).
  exists sr, ch, bps. split; [assumption|].
  destruct (SLogWriter (sopts s)); reflexivity.
Qed.

End RequestFacts.

Lemma length_string_of_list_ascii :
  forall l, String.length (string_of_list_ascii l) = List.length l.
Proof. induction l; cbn; congruence. Qed.

(** [buildTTSRequest] touches the file system only. *)
Lemma buildTTSRequest_leaves_network :
  forall env text o,
    count is_http (trace (Server.buildTTSRequest env text o)) = 0%nat
    /\ count is_close_body (trace (Server.buildTTSRequest env text o)) = 0%nat
    /\ count is_clock (trace (Server.buildTTSRequest env text o)) = 0%nat.
Proof.
  intros env text o.
  destruct (buildTTSRequest_cases env text o)
    as [(Hu & ->) | [(Hu & Hp & ->) | [(Hu & Hp & c & Ho & ->) |
       [(Hu & Hp & Ho & c & Hr & ->) | (Hu & Hp & Ho & b & Hr & ->)]]]];
    cbn; auto.
Qed.

(** Every error of [buildTTSRequest] wraps a cause. *)
Lemma buildTTSRequest_error_wraps :
  forall env text o e,
    result (Server.buildTTSRequest env text o) = inl e ->
    exists msg cause, e = ErrorfW msg cause.
Proof.
  intros env text o e.
  destruct (buildTTSRequest_cases env text o)
    as [(Hu & ->) | [(Hu & Hp & ->) | [(Hu & Hp & c & Ho & ->) |
       [(Hu & Hp & Ho & c & Hr & ->) | (Hu & Hp & Ho & b & Hr & ->)]]]];
    cbn; intros [=]; subst; eauto.
Qed.

(** X20. An error of the category of a failed process, returned by the
    warm path, stands for an HTTP answer: its exit code is the status
    code of the response, which is not 200, and its excerpt is the
    beginning of the response body, 512 bytes at most. The response body
    is closed before the call returns. *)
Theorem server_exit_code_is_the_http_status :
  forall (ReadInfo : list Z -> Decoder) (s : Server.ServerClient)
         (env : Server.http_env) (text : string)
         (o : option Server.ServerGenerateOptions) (code : Z)
         (excerpt : string),
    result (Server.Generate ReadInfo s env text o) = inl (ErrNonZeroExit code excerpt) ->
    exists resp,
      Server.do_result env = inr resp
      /\ code = Server.StatusCode resp /\ code <> 200
      /\ excerpt = string_of_list_ascii
                     (map (fun b => ascii_of_N (Z.to_N b))
                          (firstn 512 (Server.Body resp)))
      /\ (String.length excerpt <= 512)%nat
      /\ count is_close_body (trace (Server.Generate ReadInfo s env text o)) = 1%nat.
Proof.
  intros ReadInfo s env text o code excerpt.
  pose proof (buildTTSRequest_leaves_network env text (given o))
    as (_ & Hcb & _).
  destruct (server_generate_cases ReadInfo s env text o)
    as [(_ & ->) | [(_ & e & He & ->) | [(_ & _ & e & _ & ->) |
       [(_ & _ & _ & e & _ & ->) | [(_ & _ & _ & resp & Hdo & Hs & ->) |
       [(_ & _ & _ & resp & _ & _ & e & _ & ->) |
       [(_ & _ & _ & resp & _ & _ & _ & e & Hparse & ->) |
        (_ & _ & _ & resp & _ & _ & _ & sr & ch & bps & _ & ->)]]]]]]];
    cbn [result fst]; intros Heq; try discriminate Heq.
  - apply buildTTSRequest_error_wraps in He.
    destruct He as (msg & cause & ->). discriminate Heq.
  - exists resp.
    assert (Hc : code = Server.StatusCode resp) by congruence.
    assert (Hx : excerpt = string_of_list_ascii
                     (map (fun b => ascii_of_N (Z.to_N b))
                          (firstn 512 (Server.Body resp)))) by congruence.
    clear Heq. subst code excerpt. repeat split; auto.
    + rewrite length_string_of_list_ascii, length_map, length_firstn. lia.
    + unfold trace in *. cbn [snd]. rewrite count_app, Hcb. reflexivity.
  - assert (He : e = ErrNonZeroExit code excerpt) by congruence.
    apply parseWAVHeader_errors in Hparse. rewrite He in Hparse.
    destruct Hparse.
Qed.

(** X21. A call of the warm path sends at most one HTTP request, and
    sends it exactly when the text is not blank, the body could be built
    and the request object could be created; the response body is closed
    exactly when that request was answered, whatever the status and
    whatever happens afterwards; and the clock is read at most twice. *)
Theorem server_sends_one_request_and_closes_the_body :
  forall (ReadInfo : list Z -> Decoder) (s : Server.ServerClient)
         (env : Server.http_env) (text : string)
         (o : option Server.ServerGenerateOptions),
    let tr := trace (Server.Generate ReadInfo s env text o) in
    (count is_http tr <= 1)%nat
    /\ (count is_http tr = 1%nat <->
        ~ blank text
        /\ (exists req,
              result (Server.buildTTSRequest env text (given o)) = inr req)
        /\ Server.newreq_err env = None)
    /\ (count is_close_body tr = 1%nat <->
        count is_http tr = 1%nat
        /\ exists resp, Server.do_result env = inr resp)
    /\ (count is_close_body tr <= count is_http tr)%nat
    /\ (count is_clock tr <= 2)%nat.
Proof.
  intros ReadInfo s env text o tr. subst tr.
  pose proof (buildTTSRequest_leaves_network env text (given o))
    as (Hh & Hcb & Hck).
  pose proof (server_generate_cases ReadInfo s env text o) as Hcases.
  cbv zeta in Hcases.
  remember (Server.buildTTSRequest env text (given o)) as build eqn:Hbuild.
  clear Hbuild.
  destruct Hcases
    as [(Hb & ->) | [(Hb & e & He & ->) | [(Hb & Hq & e & Hn & ->) |
       [(Hb & Hq & Hn & e & Hdo & ->) | [(Hb & Hq & Hn & resp & Hdo & Hs & ->) |
       [(Hb & Hq & Hn & resp & Hdo & Hs & e & Hbe & ->) |
       [(Hb & Hq & Hn & resp & Hdo & Hs & Hbe & e & Hparse & ->) |
        (Hb & Hq & Hn & resp & Hdo & Hs & Hbe & sr & ch & bps & Hparse & ->)]]]]]]];
    unfold trace in *; cbn [snd]; rewrite ?count_app, ?Hh, ?Hcb, ?Hck;
    try (destruct (Server.SLogWriter (Server.sopts s)));
    cbn;
    repeat match goal with |- _ /\ _ => split | |- _ <-> _ => split end;
    try lia; try discriminate; auto; eauto;
    try (intros (Hx & (req & Hy) & Hz); try contradiction; congruence);
    try (intros (Hx & (resp' & Hy)); try discriminate Hx; congruence).
Qed.

(** X22. A successful result of the warm path is the validated body of
    one answer with status 200: the text was not blank, one request was
    sent, the data are the bytes of the response body, read without
    error, the three metadata fields are those [parseWAVHeader] reads
    from these very bytes, none of them zero, and the duration is the
    time between the dispatch of the request and the end of the read. *)
Theorem server_result_is_validated_body :
  forall (ReadInfo : list Z -> Decoder) (s : Server.ServerClient)
         (env : Server.http_env) (text : string)
         (o : option Server.ServerGenerateOptions) (res : CLI.WAVResult),
    result (Server.Generate ReadInfo s env text o) = inr res ->
    ~ blank text
    /\ (exists resp,
          Server.do_result env = inr resp
          /\ Server.StatusCode resp = 200
          /\ Server.body_err resp = None
          /\ CLI.Data res = Server.Body resp)
    /\ parseWAVHeader ReadInfo (CLI.Data res)
         = inr (CLI.SampleRate res, CLI.Channels res, CLI.BitsPerSample res)
    /\ CLI.SampleRate res <> 0 /\ CLI.Channels res <> 0
    /\ CLI.BitsPerSample res <> 0
    /\ CLI.Duration (CLI.Stats res)
         = Server.t_read env - Server.t_dispatch env
    /\ count is_http (trace (Server.Generate ReadInfo s env text o)) = 1%nat
    /\ count is_close_body (trace (Server.Generate ReadInfo s env text o)) = 1%nat.
Proof.
  intros ReadInfo s env text o res.
  pose proof (buildTTSRequest_leaves_network env text (given o))
    as (Hh & Hcb & _).
  pose proof (server_generate_cases ReadInfo s env text o) as Hcases.
  cbv zeta in Hcases.
  remember (Server.buildTTSRequest env text (given o)) as build eqn:Hbuild.
  clear Hbuild.
  destruct Hcases
    as [(Hb & ->) | [(Hb & e & He & ->) | [(Hb & Hq & e & Hn & ->) |
       [(Hb & Hq & Hn & e & Hdo & ->) | [(Hb & Hq & Hn & resp & Hdo & Hs & ->) |
       [(Hb & Hq & Hn & resp & Hdo & Hs & e & Hbe & ->) |
       [(Hb & Hq & Hn & resp & Hdo & Hs & Hbe & e & Hparse & ->) |
        (Hb & Hq & Hn & resp & Hdo & Hs & Hbe & sr & ch & bps & Hparse & ->)]]]]]]];
    cbn [result fst]; intros Heq; try discriminate Heq.
  assert (Hres : res = {| CLI.Data := Server.Body resp; CLI.SampleRate := sr;
                          CLI.Channels := ch; CLI.BitsPerSample := bps;
                          CLI.Stats :=
                            {| CLI.Duration :=
                                 Server.t_read env - Server.t_dispatch env |} |})
    by congruence.
  clear Heq. subst res. cbn [CLI.Data CLI.SampleRate CLI.Channels
    CLI.BitsPerSample CLI.Stats CLI.Duration].
  destruct (parseWAVHeader_fields_nonzero _ _ _ _ _ Hparse) as (H1 & H2 & H3).
  split; [assumption|]. split; [exists resp; auto|].
  do 5 (split; [assumption || reflexivity|]).
  unfold trace in *. cbn [snd]. rewrite !count_app, Hh, Hcb.
  destruct (Server.SLogWriter (Server.sopts s)); split; reflexivity.
Qed.


(* ================================================================== *)
(** * Properties of the server supervisor                               *)
(* ================================================================== *)

Section SupervisorFacts.

Import Server Supervisor.
Local Open Scope string_scope.

(** The ways through [Health]. *)
Lemma Health_cases :
  forall (s : ServerClient) (h : health_env),
    let get := HTTPDo "GET" (baseURL (sopts s) ++ "/health") in
    (exists e, hreq_err h = Some e /\
       Health s h = (inl (ErrorfW "pockettts: build health request" e), []))
    \/ (hreq_err h = None /\ exists e, hdo h = inl e /\
        Health s h = (inl (ErrorfW "pockettts: health check" e), [get]))
    \/ (hreq_err h = None /\ exists status, hdo h = inr status /\
        status <> 200 /\
        Health s h =
          (inl (Errorf ("pockettts: health check returned status "
                        ++ formatInt status)), [get; CloseBody]))
    \/ (hreq_err h = None /\ hdo h = inr 200 /\
        Health s h = (inr tt, [get; CloseBody])).
Proof.
  intros s h get. unfold Health. fold get.
  destruct (hreq_err h) as [e|]; cbn.
  { left. eauto. }
  right. destruct (hdo h) as [e|status]; cbn.
  { left. eauto. }
  right. unfold defer.
  destruct (Z.eqb_spec status 200) as [->|Hs]; cbn.
  - right. auto.
  - left. split; [reflexivity|]. exists status. auto.
Qed.

(** X24. [Health] answers nil exactly when the request can be built and
    the server answers with status 200; it sends at most one request, a
    GET to the path /health of the base address; and it closes the
    response body exactly when the request was answered, whatever the
    status. *)
Theorem health_is_nil_only_on_status_200 :
  forall (s : ServerClient) (h : health_env),
    let tr := trace (Health s h) in
    (result (Health s h) = inr tt <-> hreq_err h = None /\ hdo h = inr 200)
    /\ (count is_http tr <= 1)%nat
    /\ (forall ev, In ev tr -> is_http ev = true ->
        ev = HTTPDo "GET" (baseURL (sopts s) ++ "/health"))
    /\ (count is_close_body tr = 1%nat <->
        hreq_err h = None /\ exists status, hdo h = inr status)
    /\ (count is_close_body tr <= count is_http tr)%nat.
Proof.
  intros s h tr. subst tr.
  destruct (Health_cases s h)
    as [(e & Hr & ->) | [(Hr & e & Hd & ->) |
       [(Hr & st & Hd & Hs & ->) | (Hr & Hd & ->)]]];
    cbn [result trace fst snd];
    repeat match goal with |- _ /\ _ => split | |- _ <-> _ => split end;
    cbn; try lia; try discriminate; auto;
    try (intros (Hx & Hy); try (destruct Hy as (? & Hy)); congruence);
    try (intros ev [<-|[<-|[]]] Hev; try discriminate Hev; reflexivity);
    try (intros ev [<-|[]] Hev; try discriminate Hev; reflexivity);
    try (intros ev []); eauto.
Qed.

(** The steps of a health check: no kill, no wait, no sleep. *)
Lemma Health_steps :
  forall (s : ServerClient) (h : health_env),
    ~ In (Do KillProcess) (map Do (trace (Health s h)))
    /\ ~ In (Do WaitProcess) (map Do (trace (Health s h)))
    /\ List.length (filter is_sleep (map Do (trace (Health s h)))) = 0%nat.
Proof.
  intros s h.
  destruct (Health_cases s h)
    as [(e & Hr & ->) | [(Hr & e & Hd & ->) |
       [(Hr & st & Hd & Hs & ->) | (Hr & Hd & ->)]]];
    cbn; repeat split; try reflexivity;
    intros H; repeat (destruct H as [H|H]; [discriminate H|]); exact H.
Qed.

Variable formatDuration : Z -> string.

(** What the polling loop returns, by induction on the turns. *)
Lemma poll_loop_spec :
  forall (s : ServerClient) (deadline : Z) (ps : list poll)
         (e : option error) (tr : list step),
    poll_loop formatDuration s deadline ps = Some (e, tr) ->
    exists before p after,
      ps = (before ++ p :: after)%list
      /\ Forall (keeps_waiting s deadline) before
      /\ List.length (filter is_sleep tr) = List.length before
      /\ ~ In (Do WaitProcess) tr
      /\ match e with
         | None =>
             now p < deadline /\ ctx_state p = None
             /\ result (Health s (health p)) = inr tt
             /\ ~ In (Do KillProcess) tr
         | Some err =>
             ((deadline <= now p
               /\ err = Errorf ("pockettts: server did not become healthy within "
                                ++ formatDuration (startupTimeout (sopts s))))
              \/ (now p < deadline /\ ctx_state p = Some err))
             /\ exists tr', tr = (tr' ++ [Do KillProcess])%list
                            /\ ~ In (Do KillProcess) tr'
         end.
Proof.
  intros s deadline ps. induction ps as [|p rest IH]; intros e tr; cbn.
  { discriminate. }
  destruct (Z.ltb_spec (now p) deadline) as [Hlt|Hge].
  2:{ intros [= <- <-]. exists [], p, rest. cbn.
      split; [reflexivity|]. split; [constructor|]. split; [reflexivity|].
      split; [intros [H|[H|[]]]; discriminate H|].
      split; [left; auto|]. exists [Do ReadClock]. split; [reflexivity|].
      intros [H|[]]; discriminate H. }
  destruct (ctx_state p) as [err|] eqn:Hctx.
  { intros [= <- <-]. exists [], p, rest. cbn.
    split; [reflexivity|]. split; [constructor|]. split; [reflexivity|].
    split; [intros [H|[H|[]]]; discriminate H|].
    split; [right; auto|]. exists [Do ReadClock]. split; [reflexivity|].
    intros [H|[]]; discriminate H. }
  pose proof (Health_steps s (health p)) as (Hk & Hw & Hsl).
  destruct (Health s (health p)) as [[herr|[]] htr] eqn:Hh;
    unfold trace in Hk, Hw, Hsl; cbn [snd] in Hk, Hw, Hsl.
  2:{ intros [= <- <-]. exists [], p, rest. cbn.
      split; [reflexivity|]. split; [constructor|].
      split; [exact Hsl|].
      split; [intros [H|H]; [discriminate H|contradiction]|].
      split; [assumption|]. split; [assumption|].
      split; [rewrite Hh; reflexivity|].
      intros [H|H]; [discriminate H|contradiction]. }
  destruct (poll_loop formatDuration s deadline rest) as [[e' more]|] eqn:Hrest;
    [|discriminate].
  intros [= <- <-].
  destruct (IH e' more eq_refl)
    as (before & q & after & Hps & Hall & Hsleep & Hnw & Hend).
  exists (p :: before), q, after.
  split; [rewrite Hps; reflexivity|].
  split.
  { constructor; [|exact Hall]. repeat split; auto.
    exists herr. rewrite Hh. reflexivity. }
  split.
  { cbn [filter is_sleep app]. rewrite filter_app, length_app, Hsl.
    cbn. rewrite Hsleep. reflexivity. }
  split.
  { cbn. intros [H|H]; [discriminate H|].
    apply in_app_or in H. destruct H as [H|[H|H]];
      [contradiction|discriminate H|contradiction]. }
  destruct e' as [err|].
  - destruct Hend as (Hwhy & tr' & -> & Hnk). split; [exact Hwhy|].
    exists (Do ReadClock :: map Do htr ++ Sleep 500 :: tr')%list.
    split.
    { cbn. rewrite <- app_assoc. reflexivity. }
    cbn. intros [H|H]; [discriminate H|].
    apply in_app_or in H. destruct H as [H|[H|H]];
      [contradiction|discriminate H|contradiction].
  - destruct Hend as (H1 & H2 & H3 & Hnk).
    do 3 (split; [assumption|]).
    cbn. intros [H|H]; [discriminate H|].
    apply in_app_or in H. destruct H as [H|[H|H]];
      [contradiction|discriminate H|contradiction].
Qed.

(** The loop ends as soon as one turn ends it. *)
Lemma poll_loop_returns :
  forall (s : ServerClient) (deadline : Z) (ps : list poll) (p : poll),
    In p ps ->
    (deadline <= now p \/ ctx_state p <> None
     \/ result (Health s (health p)) = inr tt) ->
    exists r, poll_loop formatDuration s deadline ps = Some r.
Proof.
  intros s deadline ps p. induction ps as [|q rest IH]; intros Hin Hend.
  { destruct Hin. }
  cbn. destruct (Z.ltb_spec (now q) deadline) as [Hlt|Hge]; [|eauto].
  destruct (ctx_state q) as [err|] eqn:Hctx; [eauto|].
  destruct (Health s (health q)) as [[herr|[]] htr] eqn:Hh; [|eauto].
  destruct Hin as [->|Hin].
  { exfalso. destruct Hend as [H|[H|H]]; [lia|congruence|].
    rewrite Hh in H. discriminate H. }
  destruct (IH Hin Hend) as ([e more] & ->). eauto.
Qed.

(** X25. [Start] returns nil only after a health check that succeeded:
    the process was spawned and is kept, the turns of the loop before
    the healthy one all failed their check within the deadline and with
    a live context, the loop slept once after each of them, and the
    process is neither killed nor waited for. *)
Theorem start_returns_nil_only_when_healthy :
  forall (s : ServerClient) (had : bool) (w : start_env) (proc : bool)
         (tr : list step),
    Start formatDuration s had w = Some (None, proc, tr) ->
    spawn_err w = None /\ proc = true
    /\ (exists before p after,
          polls w = (before ++ p :: after)%list
          /\ Forall (keeps_waiting s (deadline_of s w)) before
          /\ now p < deadline_of s w /\ ctx_state p = None
          /\ result (Health s (health p)) = inr tt
          /\ List.length (filter is_sleep tr) = List.length before)
    /\ ~ In (Do KillProcess) tr /\ ~ In (Do WaitProcess) tr.
Proof.
  intros s had w proc tr. unfold Start.
  destruct (spawn_err w) as [err|] eqn:Hspawn; [discriminate|].
  fold (deadline_of s w).
  destruct (poll_loop formatDuration s (deadline_of s w) (polls w))
    as [[e ptr]|] eqn:Hloop; [|discriminate].
  intros [= -> <- <-].
  destruct (poll_loop_spec _ _ _ _ _ Hloop)
    as (before & p & after & Hps & Hall & Hsleep & Hnw & Hlt & Hctx & Hok & Hnk).
  split; [reflexivity|]. split; [reflexivity|]. split.
  { exists before, p, after. repeat split; auto. }
  split; intros [H|[H|[H|H]]]; try discriminate H; contradiction.
Qed.

(** X26. A failed [Start], classified. Either the process could not be
    spawned: the error is [ErrExecutableNotFound] for a not-found cause
    and the wrapped cause otherwise, nothing is polled or killed, and
    [s.proc] is left as it was, so a process kept from an earlier
    [Start] on the same client stays. Or it was spawned: then the error
    is that of the context or the startup timeout, the last thing
    [Start] does is to kill the process, once, and it never waits for
    it, while the client keeps the process. *)
Theorem failed_start_kills_the_server_it_spawned :
  forall (s : ServerClient) (had : bool) (w : start_env) (err : error)
         (proc : bool) (tr : list step),
    Start formatDuration s had w = Some (Some err, proc, tr) ->
    (exists cause,
        spawn_err w = Some cause /\ proc = had
        /\ tr = [Do (StartAttempt (server_exe s) (serveArgs (sopts s))
                       (SLogWriter (sopts s)))]
        /\ err = (if isNotFound cause
                  then ErrExecutableNotFound (server_exe s)
                  else ErrorfW "pockettts: start server" cause))
    \/ (spawn_err w = None /\ proc = true
        /\ (exists tr', tr = (tr' ++ [Do KillProcess])%list
                        /\ ~ In (Do KillProcess) tr')
        /\ ~ In (Do WaitProcess) tr
        /\ (err = Errorf ("pockettts: server did not become healthy within "
                          ++ formatDuration (startupTimeout (sopts s)))
            \/ exists p, In p (polls w) /\ ctx_state p = Some err)).
Proof.
  intros s had w err proc tr. unfold Start. fold (server_exe s).
  destruct (spawn_err w) as [cause|] eqn:Hspawn.
  { intros [= <- <- <-]. left. exists cause. auto. }
  fold (deadline_of s w).
  destruct (poll_loop formatDuration s (deadline_of s w) (polls w))
    as [[e ptr]|] eqn:Hloop; [|discriminate].
  intros [= -> <- <-]. right.
  destruct (poll_loop_spec _ _ _ _ _ Hloop)
    as (before & p & after & Hps & Hall & Hsleep & Hnw & Hwhy & tr' & -> & Hnk).
  split; [reflexivity|]. split; [reflexivity|]. split.
  { eexists (_ :: _ :: _ :: tr'). split; [reflexivity|].
    intros [H|[H|[H|H]]]; try discriminate H; contradiction. }
  split.
  { intros [H|[H|[H|H]]]; try discriminate H; contradiction. }
  destruct Hwhy as [(_ & ->)|(_ & Hctx)]; [left; reflexivity|].
  right. exists p. split; [|assumption].
  rewrite Hps. apply in_or_app. right. left. reflexivity.
Qed.

(** X27. [Start] returns exactly when something ends it: the spawn
    fails, or some turn of the loop finds the deadline reached, the
    context done or the server healthy. As long as the clock stays
    before the deadline, the context stays live and the health check
    keeps failing, it goes on polling. *)
Theorem start_returns_iff_something_ends_it :
  forall (s : ServerClient) (had : bool) (w : start_env),
    (exists r, Start formatDuration s had w = Some r) <->
    (spawn_err w <> None
     \/ exists p, In p (polls w)
           /\ (deadline_of s w <= now p \/ ctx_state p <> None
               \/ result (Health s (health p)) = inr tt)).
Proof.
  intros s had w. unfold Start. fold (deadline_of s w).
  destruct (spawn_err w) as [cause|] eqn:Hspawn.
  { split; [left; discriminate|eauto]. }
  split.
  - intros (r & Hr). right.
    destruct (poll_loop formatDuration s (deadline_of s w) (polls w))
      as [[e ptr]|] eqn:Hloop; [|discriminate].
    destruct (poll_loop_spec _ _ _ _ _ Hloop)
      as (before & p & after & Hps & _ & _ & _ & Hend).
    exists p. split.
    { rewrite Hps. apply in_or_app. right. left. reflexivity. }
    destruct e as [err|].
    + destruct Hend as ([(H & _)|(_ & H)] & _); [auto|].
      right; left. congruence.
    + destruct Hend as (_ & _ & H & _). auto.
  - intros [H|(p & Hin & Hend)]; [congruence|].
    destruct (poll_loop_returns s (deadline_of s w) (polls w) p Hin Hend)
      as ([e ptr] & ->). eauto.
Qed.

(** X28. [Stop] after [Start]. After a returning [Start], [s.proc] is
    set exactly when it was set before the call or the spawn succeeded.
    When it is not set, [Stop] does nothing and returns nil. When it is
    set, whether by this [Start] (also when it then failed and killed
    the process) or by an earlier one on the same client, [Stop] kills,
    and waits for the process exactly when the kill reports no error;
    [Stop] fails exactly when the kill does, and [Start] itself never
    waits. *)
Theorem stop_reaps_what_start_spawned :
  forall (s : ServerClient) (had : bool) (w : start_env) (e : option error)
         (proc : bool) (tr : list step) (kill_err : option error),
    Start formatDuration s had w = Some (e, proc, tr) ->
    (proc = true <-> had = true \/ spawn_err w = None)
    /\ (proc = false -> Stop proc kill_err = (None, []))
    /\ (proc = true ->
        In (Do KillProcess) (snd (Stop proc kill_err))
        /\ (fst (Stop proc kill_err) = None <-> kill_err = None)
        /\ (In (Do WaitProcess) (snd (Stop proc kill_err)) <->
            kill_err = None))
    /\ ~ In (Do WaitProcess) tr.
Proof.
  intros s had w e proc tr kill_err Hstart.
  assert (Hproc : (proc = true <-> had = true \/ spawn_err w = None)
                  /\ ~ In (Do WaitProcess) tr).
  { revert Hstart. unfold Start.
    destruct (spawn_err w) as [cause|] eqn:Hspawn.
    { intros [= <- <- <-]. split.
      - split; [auto|]. intros [H|H]; [exact H|discriminate H].
      - intros [H|[]]; discriminate H. }
    fold (deadline_of s w).
    destruct (poll_loop formatDuration s (deadline_of s w) (polls w))
      as [[e' ptr]|] eqn:Hloop; [|discriminate].
    intros [= <- <- <-].
    destruct (poll_loop_spec _ _ _ _ _ Hloop)
      as (before & p & after & _ & _ & _ & Hnw & _).
    split; [split; auto|].
    intros [H|[H|[H|H]]]; try discriminate H; contradiction. }
  destruct Hproc as (Hiff & Hnw).
  split; [exact Hiff|]. split; [intros ->; reflexivity|].
  split; [|exact Hnw].
  intros ->. unfold Stop. cbn [negb].
  destruct kill_err as [k|]; cbn; repeat split; auto;
    try discriminate; try (intros [H|[]]; discriminate H).
Qed.

End SupervisorFacts.

(* ================================================================== *)
(** * The header the tests build, and decimal arguments                 *)
(* ================================================================== *)

(** X29. The layout of the header [makeWAVHeader] builds from values of
    its unsigned types: 44 bytes, each below 256; the four tags at
    offsets 0, 8, 12 and 36; and, read back in little-endian order, a
    chunk size of 36, a format chunk of 16 bytes, the PCM tag, the
    channels at 22, the sample rate at 24, the byte rate and the block
    alignment computed in 32 and 16 bits at 28 and 32, the bit depth at
    34, and a data size of zero. *)
Theorem makeWAVHeader_layout :
  forall sr ch bps : Z,
    0 <= sr < 4294967296 -> 0 <= ch < 65536 -> 0 <= bps < 65536 ->
    let h := makeWAVHeader sr ch bps in
    List.length h = 44%nat
    /\ Forall (fun b => 0 <= b < 256) h
    /\ slice h 0 4 = bytes_of_string "RIFF"
    /\ slice h 8 12 = bytes_of_string "WAVE"
    /\ slice h 12 16 = bytes_of_string "fmt "
    /\ slice h 36 40 = bytes_of_string "data"
    /\ le32 h 4 = 36 /\ le32 h 16 = 16 /\ le16 h 20 = 1
    /\ le16 h 22 = ch /\ le32 h 24 = sr
    /\ le32 h 28 = ((sr * ch * bps) mod 4294967296) / 8
    /\ le16 h 32 = ((ch * bps) mod 65536) / 8
    /\ le16 h 34 = bps /\ le32 h 40 = 0.
Proof.
  intros sr ch bps Hsr Hch Hbps h. subst h.
  rewrite makeWAVHeader_bytes. cbv zeta.
  assert (Hbr : u32 (u32 (sr * u32 ch) * u32 bps) / 8
                = ((sr * ch * bps) mod 4294967296) / 8).
  { unfold u32. rewrite (Z.mod_small ch), (Z.mod_small bps) by lia.
    rewrite Z.mul_mod_idemp_l by lia. reflexivity. }
  rewrite Hbr. change (u16 (ch * bps)) with ((ch * bps) mod 65536).
  assert (Hbrr : 0 <= ((sr * ch * bps) mod 4294967296) / 8 < 4294967296)
    by (Z.to_euclidean_division_equations; lia).
  assert (Hbar : 0 <= ((ch * bps) mod 65536) / 8 < 65536)
    by (Z.to_euclidean_division_equations; lia).
  generalize dependent (((sr * ch * bps) mod 4294967296) / 8).
  generalize dependent (((ch * bps) mod 65536) / 8).
  intros ba Hba br _ Hbr.
  split; [reflexivity|]. split.
  { repeat constructor; try discriminate;
      unfold u8; apply Z.mod_pos_bound; lia. }
  do 4 (split; [reflexivity|]).
  do 3 (split; [reflexivity|]).
  unfold le16, le32, byte_at. cbn [nth Nat.add].
  rewrite !le32_u8, !le16_u8 by lia.
  repeat split; reflexivity.
Qed.

Lemma makeWAVHeader_layout_witness :
  List.length (makeWAVHeader 24000 1 16) = 44%nat
  /\ le32 (makeWAVHeader 24000 1 16) 28 = 48000.
Proof.
  destruct (makeWAVHeader_layout 24000 1 16 ltac:(lia) ltac:(lia) ltac:(lia))
    as (Hlen & _ & _ & _ & _ & _ & _ & _ & _ & _ & _ & Hbr & _).
  split; [exact Hlen|exact Hbr].
Defined.

(** [Z.to_int] never gives the empty numeral. *)
Lemma to_int_not_nil :
  forall n, Z.to_int n <> Decimal.Pos Decimal.Nil
            /\ Z.to_int n <> Decimal.Neg Decimal.Nil.
Proof.
  intros n. destruct n as [|p|p]; cbn; split; try discriminate;
    intros [= H]; now apply (DecimalPos.Unsigned.to_uint_nonnil p).
Qed.

(** X30. The decimal form [formatInt] prints reads back as the number it
    was printed from; hence two different values of an integer option
    never give the same argument. *)
Theorem formatInt_reads_back :
  (forall n : Z,
     option_map Z.of_int (NilZero.int_of_string (formatInt n)) = Some n)
  /\ (forall a b : Z, formatInt a = formatInt b -> a = b).
Proof.
  assert (Hback : forall n : Z,
     option_map Z.of_int (NilZero.int_of_string (formatInt n)) = Some n).
  { intros n. unfold formatInt.
    destruct (to_int_not_nil n) as (Hp & Hn).
    rewrite NilZero.isi by assumption. cbn [option_map].
    now rewrite DecimalZ.of_to. }
  split; [exact Hback|].
  intros a b Heq. pose proof (Hback a) as Ha. rewrite Heq, Hback in Ha.
  congruence.
Qed.

(* ================================================================== *)
(** * The further properties at concrete inputs                         *)
(* ================================================================== *)

Lemma write_failure_kills_without_waiting_witness :
  result (run default_runner env_broken_pipe [] [104; 105])
    = inl (ErrorfW "pockettts: write stdin" (Errno EPIPE))
  /\ count is_kill (trace (run default_runner env_broken_pipe [] [104; 105]))
     = 1%nat
  /\ count is_wait (trace (run default_runner env_broken_pipe [] [104; 105]))
     = 0%nat.
Proof.
  apply (write_failure_kills_without_waiting default_runner env_broken_pipe
           [] [104; 105] (Errno EPIPE)); reflexivity.
Defined.

Lemma other_start_failures_keep_their_cause_witness :
  result (run default_runner env_denied [] [])
    = inl (ErrorfW "pockettts: start process"
             (PathError "fork/exec" "/opt/pocket-tts" (Errno EACCES))).
Proof.
  apply (other_start_failures_keep_their_cause default_runner env_denied
           [] [] (PathError "fork/exec" "/opt/pocket-tts" (Errno EACCES)));
    reflexivity.
Defined.

Lemma successful_result_is_validated_output_witness :
  CLI.Data hello_result = out_bytes prints_header
  /\ CLI.SampleRate hello_result <> 0.
Proof.
  destruct (successful_result_is_validated_output plain_format example_decoder one_slot 0%nat
              (calm prints_header) "Hello."%string hello_out 0%nat
              hello_result)
    as (_ & Hdata & _ & _ & Hsr & _).
  - vm_compute. reflexivity.
  - vm_compute. reflexivity.
  - split; [exact Hdata|exact Hsr].
Defined.

Lemma generate_errors_are_classified_witness :
  ErrEmptyText = ErrEmptyText
  \/ ErrEmptyText
     = ErrProcessTimeout "context cancelled while waiting for concurrency slot"
  \/ result (run_of plain_format one_slot (calm prints_header) white_text)
     = inl ErrEmptyText
  \/ (exists rr,
        result (run_of plain_format one_slot (calm prints_header) white_text)
          = inr rr
        /\ (ErrEmptyText = ErrNonZeroExit 0 "empty stdout — no WAV produced"
            \/ MalformedPayload ErrEmptyText)).
Proof.
  apply (generate_errors_are_classified plain_format example_decoder one_slot 0%nat
           (calm prints_header) white_text (inl ErrEmptyText, []) 0%nat
           ErrEmptyText).
  - vm_compute. reflexivity.
  - reflexivity.
Defined.

Lemma slot_brackets_the_run_witness :
  (count is_sem_send (trace hello_out) <= 1)%nat
  /\ (count is_start_attempt (trace hello_out) <= 1)%nat.
Proof.
  destruct (slot_brackets_the_run plain_format example_decoder one_slot 0%nat
              (calm prints_header) "Hello."%string hello_out 0%nat)
    as (Hsend & Hstart & _).
  - vm_compute. reflexivity.
  - split; [exact Hsend|exact Hstart].
Defined.

Lemma done_context_races_with_free_slot_witness :
  CLI.generate plain_format example_decoder one_slot 0 done_at_entry "Hello."
    = Some ((inl (ErrProcessTimeout
                    "context cancelled while waiting for concurrency slot"),
             []), 0%nat).
Proof.
  apply (proj1 (done_context_races_with_free_slot plain_format example_decoder one_slot
                  1%nat 0%nat done_at_entry "Hello."%string
                  ltac:(rewrite <- TrimSpace_empty_iff; vm_compute; discriminate)
                  eq_refl ltac:(lia) eq_refl)).
  reflexivity.
Defined.

Lemma exportVoice_is_one_run_witness :
  trace (Offline.exportVoice no_failure "me.wav" "me.safetensors"
           export_defaults)
    = trace (run default_runner no_failure
               ["export-voice"; "me.wav"; "me.safetensors"; "--quiet"]%string
               []).
Proof.
  apply (proj1 (proj2 (exportVoice_is_one_run no_failure "me.wav"%string
                         "me.safetensors"%string export_defaults
                         ltac:(discriminate) ltac:(discriminate)))).
Defined.

Lemma local_voice_file_is_uploaded_whole_witness :
  Server.buildTTSRequest with_voice_file "Custom voice." speaker_file
    = (inr ([Server.FormField "text" "Custom voice.";
             Server.FormFile "voice_wav" "me.wav" [1; 2; 3]],
            "multipart/form-data; boundary=b0"%string),
       [OpenFile "voices/me.wav"; CloseFile "voices/me.wav"]).
Proof.
  apply (local_voice_file_is_uploaded_whole with_voice_file
           "Custom voice."%string speaker_file [1; 2; 3]
           eq_refl ltac:(discriminate) eq_refl eq_refl).
Defined.

Lemma request_fails_only_on_the_voice_file_witness :
  Server.VoiceURL speaker_file = ""%string
  /\ Server.VoiceWAVPath speaker_file <> ""%string.
Proof.
  destruct (request_fails_only_on_the_voice_file
              (serves 200 []) "Custom voice."%string speaker_file
              (ErrorfW "pockettts: open voice file"
                 (PathError "open" "" (Errno ENOENT))) eq_refl)
    as (Hu & Hp & _).
  split; [exact Hu|exact Hp].
Defined.

Lemma body_is_text_then_at_most_one_voice_witness :
  exists voice,
    [Server.FormField "text" "Custom voice.";
     Server.FormFile "voice_wav" "me.wav" [1; 2; 3]]
      = Server.FormField "text" "Custom voice." :: voice
    /\ (List.length voice <= 1)%nat.
Proof.
  destruct (body_is_text_then_at_most_one_voice with_voice_file
              "Custom voice."%string speaker_file
              [Server.FormField "text" "Custom voice.";
               Server.FormFile "voice_wav" "me.wav" [1; 2; 3]]
              "multipart/form-data; boundary=b0"%string eq_refl)
    as (_ & voice & Hparts & Hlen & _).
  exists voice. split; [exact Hparts|exact Hlen].
Defined.

Lemma server_exit_code_is_the_http_status_witness :
  exists resp,
    Server.do_result (serves 503 [111; 111; 109]) = inr resp
    /\ 503 = Server.StatusCode resp.
Proof.
  destruct (server_exit_code_is_the_http_status example_decoder any_server
              (serves 503 [111; 111; 109]) "Hello."%string None 503
              "oom"%string eq_refl)
    as (resp & Hdo & Hcode & _).
  exists resp. split; [exact Hdo|exact Hcode].
Defined.

Lemma server_result_is_validated_body_witness :
  count is_http
    (trace (Server.Generate example_decoder any_server with_voice_file "Custom voice."
              (Some speaker_file))) = 1%nat.
Proof.
  destruct (server_result_is_validated_body example_decoder any_server with_voice_file
              "Custom voice."%string (Some speaker_file)
              {| CLI.Data := makeWAVHeader 24000 1 16;
                 CLI.SampleRate := 24000; CLI.Channels := 1;
                 CLI.BitsPerSample := 16;
                 CLI.Stats := {| CLI.Duration := 250000 |} |})
    as (_ & _ & _ & _ & _ & _ & _ & Hhttp & _).
  - vm_compute. reflexivity.
  - exact Hhttp.
Defined.


Lemma start_returns_nil_only_when_healthy_witness :
  Supervisor.spawn_err comes_up = None
  /\ ~ In (Supervisor.Do KillProcess) comes_up_steps.
Proof.
  destruct (start_returns_nil_only_when_healthy plain_duration any_server
              false comes_up true comes_up_steps)
    as (Hspawn & _ & _ & Hnk & _).
  - vm_compute. reflexivity.
  - split; [exact Hspawn|exact Hnk].
Defined.

Lemma failed_start_kills_the_server_it_spawned_witness :
  Supervisor.spawn_err stays_down = None
  /\ ~ In (Supervisor.Do WaitProcess) stays_down_steps.
Proof.
  destruct (failed_start_kills_the_server_it_spawned plain_duration any_server
              false stays_down
              (Errorf "pockettts: server did not become healthy within 5m0s")
              true stays_down_steps)
    as [(cause & Hs & _) | (Hspawn & _ & _ & Hnw & _)].
  - vm_compute. reflexivity.
  - discriminate Hs.
  - split; [exact Hspawn|exact Hnw].
Defined.

Lemma stop_reaps_what_start_spawned_witness :
  In (Supervisor.Do WaitProcess) (snd (Supervisor.Stop true None))
  /\ ~ In (Supervisor.Do WaitProcess) comes_up_steps
  /\ Supervisor.Stop false None = (None, []).
Proof.
  destruct (stop_reaps_what_start_spawned plain_duration any_server false
              comes_up None true comes_up_steps None)
    as (_ & _ & Hstop & Hnw).
  { vm_compute. reflexivity. }
  destruct (stop_reaps_what_start_spawned plain_duration any_server false
              cannot_spawn (Some (ErrExecutableNotFound "pocket-tts")) false
              [Supervisor.Do
                 (StartAttempt "pocket-tts"
                    (Supervisor.serveArgs (Server.sopts any_server)) false)]
              None)
    as (_ & Hnone & _).
  { vm_compute. reflexivity. }
  destruct (Hstop eq_refl) as (_ & _ & Hwait).
  split; [apply Hwait; reflexivity|]. split; [exact Hnw|].
  apply Hnone. reflexivity.
Defined.
